(** * y10k: repository descriptors and the Repo.Sync orchestrator

    A shallow embedding of [Repo.Validate], [Repo.CacheLocal] and [Repo.Sync]
    (the native mirror engine) and of [YumRepoMirror.Validate] (the reposync
    front end), with the properties of the specification stated over it.

    Every call that leaves the function (operating system, go-rpm, the
    download scheduler, the logging helpers) is a field of an environment
    record working on an abstract world; a run yields the returned value, the
    world it leaves and the sequence of calls it made. *)

From Stdlib Require Import List String Ascii ZArith Bool Lia.
From Stdlib Require Import DecimalString.
From Stdlib Require DecimalPos.
Import ListNotations.
Local Open Scope string_scope.
Local Open Scope Z_scope.
Local Open Scope list_scope.

Set Implicit Arguments.

(** ** Errors and formatting *)

(** An operand of a printf-style call. *)
Inductive fmtarg : Type :=
| ArgString (s : string)
| ArgInt (n : Z)
| ArgStringer (s : string).
    (* a value with a String method, as the text the method returns *)

(** Go [error] values.  [nil] is [None] of [option error]. *)
Inductive error : Type :=
| ErrChecksumMismatch
    (* the sentinel yum.ErrChecksumMismatch, compared by identity *)
| ErrForeign (msg : string)
    (* any other error handed back by the operating system or a library *)
| ErrIsExist (msg : string)
    (* an operating-system error for which os.IsExist reports true *)
| ErrFormat (format : string) (args : list fmtarg)
    (* NewErrorf / fmt.Errorf over plain operands *)
| ErrWrap (format : string) (args : list fmtarg) (cause : error).
    (* fmt.Errorf whose last operand is the error [cause] *)

Definition NewErrorf (format : string) (args : list fmtarg) : error :=
  ErrFormat format args.

Definition os_IsExist (e : error) : bool :=
  match e with
  | ErrIsExist _ => true
  | _ => false
  end.

Module Fmt.

(** Decimal rendering of an integer, as the verb %d prints it. *)
Definition itoa (n : Z) : string := NilZero.string_of_int (Z.to_int n).

Definition missing (verb : ascii) : string :=
  ("%!" ++ String verb "(MISSING)")%string.

Definition render (a : fmtarg) : string :=
  match a with
  | ArgString s => s
  | ArgInt n => itoa n
  | ArgStringer s => s
  end.

(** [fmt.Sprintf] for the verbs the program uses: %s, %d, %v, and the
    literal %%.  An operand is consumed per verb; a verb without operand
    prints the MISSING marker. *)
Fixpoint Sprintf (format : string) (args : list fmtarg) : string :=
  match format with
  | EmptyString => EmptyString
  | String "%"%char EmptyString => "%!(NOVERB)"
  | String "%"%char (String v rest) =>
      if Ascii.eqb v "%"%char then String "%"%char (Sprintf rest args)
      else match args with
           | [] => (missing v ++ Sprintf rest [])%string
           | a :: args' => (render a ++ Sprintf rest args')%string
           end
  | String ch rest => String ch (Sprintf rest args)
  end.

End Fmt.

(** The text of an error built by this program ([None] for foreign values,
    whose text belongs to the library that made them). *)
Definition error_text (e : error) : option string :=
  match e with
  | ErrFormat format args => Some (Fmt.Sprintf format args)
  | _ => None
  end.

(** ** Repository descriptors *)

(** [Repo], part_000 lines 16-35.  [time.Time] bounds are seconds. *)
Record Repo : Type := mkRepo {
  ID : string;
  Name : string;
  Architecture : string;
  BaseURL : string;
  CachePath : string;
  Checksum_ : string;
  DeleteRemoved : bool;
  GPGCheck : bool;
  GPGKey : string;
  Groupfile : string;
  IncludeSources : bool;
  LocalPath : string;
  MirrorURL : string;
  NewOnly : bool;
  MaxDate : Z;
  MinDate : Z;
  YumfileLineNo : Z;
  YumfilePath : string
}.

(** [func (c Repo) String() string] *)
Definition Repo_String (c : Repo) : string := ID c.

Definition is_empty (s : string) : bool :=
  match s with
  | EmptyString => true
  | _ => false
  end.

(** [Repo.Validate], part_000 lines 49-59.  The method has a pointer
    receiver: the result pairs the returned error with the descriptor as the
    call leaves it. *)
Definition Validate (c : Repo) : option error * Repo :=
  if is_empty (ID c) then
    (Some (NewErrorf "Upstream repository has no ID specified (in %s:%d)"
             [ArgString (YumfilePath c); ArgInt (YumfileLineNo c)]), c)
  else if is_empty (MirrorURL c) && is_empty (BaseURL c) then
    (Some (NewErrorf
             "Upstream repository for '%s' has no mirror list or base URL (in %s:%d)"
             [ArgString (ID c); ArgString (YumfilePath c);
              ArgInt (YumfileLineNo c)]), c)
  else (None, c).

Module Mirror.

(** The fields of [YumRepo] that [YumRepoMirror.Validate] reads or writes
    (the type is declared outside the two source files). *)
Record YumRepo : Type := mkYumRepo {
  ID : string;
  Name : string;
  BaseURL : string;
  MirrorListURL : string
}.

(** [YumRepoMirror], yumrepo_mirror.go lines 23-35. *)
Record YumRepoMirror : Type := mkYumRepoMirror {
  YumRepo_ : YumRepo;
  CachePath : string;
  EnablePlugins : bool;
  IncludeSources : bool;
  LocalPath : string;
  NewOnly : bool;
  DeleteRemoved : bool;
  GPGCheck : bool;
  Architecture : string;
  YumfilePath : string;
  YumfileLineNo : Z
}.

Definition set_Name (c : YumRepoMirror) (n : string) : YumRepoMirror :=
  let y := YumRepo_ c in
  mkYumRepoMirror
    (mkYumRepo (ID y) n (BaseURL y) (MirrorListURL y))
    (CachePath c) (EnablePlugins c) (IncludeSources c) (LocalPath c)
    (NewOnly c) (DeleteRemoved c) (GPGCheck c) (Architecture c)
    (YumfilePath c) (YumfileLineNo c).

(** [YumRepoMirror.Validate], yumrepo_mirror.go lines 43-58. *)
Definition Validate (c : YumRepoMirror) : option error * YumRepoMirror :=
  if is_empty (ID (YumRepo_ c)) then
    (Some (NewErrorf "Upstream repository has no ID specified (in %s:%d)"
             [ArgString (YumfilePath c); ArgInt (YumfileLineNo c)]), c)
  else if is_empty (MirrorListURL (YumRepo_ c))
          && is_empty (BaseURL (YumRepo_ c)) then
    (Some (NewErrorf
             "Upstream repository for '%s' has no mirror list or base URL (in %s:%d)"
             [ArgString (ID (YumRepo_ c)); ArgString (YumfilePath c);
              ArgInt (YumfileLineNo c)]), c)
  else if is_empty (Name (YumRepo_ c)) then
    (None, set_Name c (ID (YumRepo_ c)))
  else (None, c).

End Mirror.

(** ** Data of a synchronisation run *)

(** A [yum.PackageEntry] as [Repo.Sync] observes it, through the accessors
    it calls.  [PackageSize] is the signed value the accessor returns. *)
Record PackageEntry : Type := mkPackageEntry {
  String_ : string;
  LocationHref : string;
  Checksum : string;
  ChecksumType : string;
  PackageSize : Z
}.

(** An [os.FileInfo] of the directory listing; only [Name] is read. *)
Record FileInfo : Type := mkFileInfo {
  FileName : string
}.

(** Handles of values owned by collaborators, known by identity only. *)
Variant KeyRing : Type := KeyRingRef (id : N).
Variant Cache : Type := CacheRef (id : N).
Variant RepoCache : Type := RepoCacheRef (id : N).
Variant PrimaryDB : Type := PrimaryDBRef (id : N).
Variant File : Type := FileRef (fd : N).

(** [DownloadJob]: the fields [Repo.Sync] writes, and [Error], which the
    scheduler sets before it hands the job back. *)
Record DownloadJob : Type := mkDownloadJob {
  Label : string;
  URL : string;
  Size : Z;
  Path : string;
  JobChecksum : string;
  JobChecksumType : string;
  Error : option error
}.

(** The conversion [uint64(x)] of a 64-bit integer. *)
Definition uint64 (x : Z) : Z := x mod 2 ^ 64.

(** Go results [(value, error)]. *)
Inductive result (A : Type) : Type :=
| Ok (a : A)
| Err (e : error).
Arguments Ok {A} a.
Arguments Err {A} e.

(** ** Calls made by a run *)

Inductive event : Type :=
| EvOpenKeyRing (key : string) (r : result KeyRing)
| EvNewCache (path : string) (r : result Cache)
| EvNewRepoCache (cache : Cache) (c : Repo) (r : result RepoCache)
| EvUpdate (rc : RepoCache) (r : option error)
| EvPrimaryDB (rc : RepoCache) (r : result PrimaryDB)
| EvMkdirAll (path : string) (perm : Z) (r : option error)
| EvReadDir (path : string) (r : result (list FileInfo))
| EvPackages (db : PrimaryDB) (r : result (list PackageEntry))
| EvValidateFileChecksum (path checksum checksum_type : string)
                         (r : option error)
| EvDownload (jobs : list DownloadJob)
| EvReceive (job : DownloadJob)
| EvOpen (path : string) (r : result File)
| EvGPGCheck (f : File) (keyring : option KeyRing) (r : option error)
| EvRemove (path : string) (r : option error)
| EvClose (f : File)
| EvDprintf (format : string) (args : list fmtarg)
| EvErrorf (e : error) (format : string) (args : list fmtarg).

(** The collaborators of [Repo.Sync] over a world [W] (file system, network,
    scheduler).  A call that only inspects the world returns its answer; a
    call that may change it returns the new world too. *)
Record Env (W : Type) : Type := mkEnv {
  OpenKeyRing : string -> W -> result KeyRing;
  NewCache : string -> W -> result Cache * W;
  NewRepoCache : Cache -> Repo -> W -> result RepoCache * W;
  Update : RepoCache -> W -> option error * W;
  PrimaryDB_ : RepoCache -> W -> result PrimaryDB * W;
  os_MkdirAll : string -> Z -> W -> option error * W;
  ioutil_ReadDir : string -> W -> result (list FileInfo);
  Packages : PrimaryDB -> W -> result (list PackageEntry);
  FilterPackages : Repo -> list PackageEntry -> list PackageEntry;
  filepath_Base : string -> string;
  filepath_Join : string -> string -> string;
  urljoin : string -> string -> string;
  bytefmt_ByteSize : Z -> string;
  yum_ValidateFileChecksum : string -> string -> string -> W -> option error;
  (** [go Download(jobs, complete)]: the jobs the channel delivers, in
      completion order, before it is closed. *)
  Download : list DownloadJob -> W -> list DownloadJob;
  (** The world as the orchestrator finds it when a job arrives. *)
  delivered : DownloadJob -> W -> W;
  os_Open : string -> W -> result File * W;
  rpm_GPGCheck : File -> option KeyRing -> W -> option error;
  os_Remove : string -> W -> option error * W;
  File_Close : File -> W -> W
}.

(** ** Runs: state, early return and the record of calls *)

Section Run.

Context {W : Type} (env : Env W).

(** A computation from a world: its outcome ([Err] is an early
    [return err]), the world it leaves, the calls it made in order. *)
Definition M (A : Type) : Type := W -> result A * W * list event.

Definition ret {A} (a : A) : M A := fun w => (Ok a, w, []).

Definition fail {A} (e : error) : M A := fun w => (Err e, w, []).

Definition bind {A B} (m : M A) (k : A -> M B) : M B :=
  fun w =>
    match m w with
    | (Ok a, w1, t1) =>
        match k a w1 with
        | (r, w2, t2) => (r, w2, t1 ++ t2)
        end
    | (Err e, w1, t1) => (Err e, w1, t1)
    end.

(** A call that inspects the world. *)
Definition observe {A} (f : W -> A) (ev : A -> event) : M A :=
  fun w => (Ok (f w), w, [ev (f w)]).

(** A call that may change the world. *)
Definition perform {A} (f : W -> A * W) (ev : A -> event) : M A :=
  fun w => (Ok (fst (f w)), snd (f w), [ev (fst (f w))]).

(** A world change with no answer. *)
Definition affect (f : W -> W) (ev : event) : M unit :=
  fun w => (Ok tt, f w, [ev]).

Definition emit (ev : event) : M unit := fun w => (Ok tt, w, [ev]).

End Run.

Declare Scope run_scope.
Delimit Scope run_scope with run.
Notation "x <- m ;; k" := (bind m (fun x => k))
  (at level 61, m at next level, right associativity) : run_scope.
Notation "m ;; k" := (bind m (fun _ => k))
  (at level 61, right associativity) : run_scope.
Local Open Scope run_scope.

(** ** Repo.CacheLocal and Repo.Sync *)

Section Sync.

Context {W : Type} (env : Env W).

(** [return nil, err] on a failed Go result. *)
Definition try {A} (m : M (W := W) (result A)) : M A :=
  r <- m ;;
  match r with
  | Ok a => ret a
  | Err e => fail e
  end.

(** The error of a failed computation rewritten on its way out. *)
Definition map_err {A} (f : error -> error) (m : M (W := W) A) : M A :=
  fun w =>
    match m w with
    | (Err e, w1, t1) => (Err (f e), w1, t1)
    | other => other
    end.

Definition Dprintf (format : string) (args : list fmtarg) : M (W := W) unit :=
  emit (EvDprintf format args).

Definition Errorf (e : error) (format : string) (args : list fmtarg)
  : M (W := W) unit :=
  emit (EvErrorf e format args).

Definition nl : string := String (ascii_of_nat 10) EmptyString.

Definition len {A} (l : list A) : Z := Z.of_nat (List.length l).

(** [Repo.CacheLocal], part_000 lines 64-85. *)
Definition CacheLocal (c : Repo) (path : string) : M RepoCache :=
  Dprintf ("Caching %v to %s..." ++ nl)%string
          [ArgStringer (Repo_String c); ArgString path] ;;
  (* connect to cache *)
  cache <- try (perform (NewCache env path) (EvNewCache path)) ;;
  (* get cache for this repo *)
  repocache <- try (perform (NewRepoCache env cache c)
                            (EvNewRepoCache cache c)) ;;
  (* update cache *)
  err <- perform (Update env repocache) (EvUpdate repocache) ;;
  match err with
  | Some e => fail e
  | None => ret repocache
  end.

(** The inner loop of the diff, part_000 lines 145-165: the listing is
    walked up to the first entry named [package_filename]; every branch
    taken there leaves the loop. *)
Fixpoint search_local (files : list FileInfo)
         (package_filename package_path : string) (p : PackageEntry)
  : M bool :=
  match files with
  | [] => ret false
  | filename :: rest =>
      if String.eqb (FileName filename) package_filename then
        (* validate checksum *)
        err <- observe (yum_ValidateFileChecksum env package_path
                          (Checksum p) (ChecksumType p))
                       (EvValidateFileChecksum package_path
                          (Checksum p) (ChecksumType p)) ;;
        match err with
        | Some ErrChecksumMismatch =>
            Errorf ErrChecksumMismatch
              "Existing file failed checksum validation for package %v"
              [ArgStringer (String_ p)] ;;
            ret false
        | Some e =>
            Errorf e "Error validating checksum for package %v"
              [ArgStringer (String_ p)] ;;
            ret false
        | None =>
            (* valid package found *)
            ret true
        end
      else search_local rest package_filename package_path p
  end.

(** The outer loop of the diff, part_000 lines 138-173, from the values of
    [missing] and [totalsize] on entry. *)
Fixpoint find_missing (files : list FileInfo) (packagedir : string)
         (packages : list PackageEntry)
         (missing : list PackageEntry) (totalsize : Z)
  : M (list PackageEntry * Z) :=
  match packages with
  | [] => ret (missing, totalsize)
  | p :: rest =>
      let package_filename := filepath_Base env (LocationHref p) in
      let package_path :=
        filepath_Join env packagedir (filepath_Base env (LocationHref p)) in
      found <- search_local files package_filename package_path p ;;
      if negb found then
        find_missing files packagedir rest
          (missing ++ [p]) (uint64 (totalsize + uint64 (PackageSize p)))
      else find_missing files packagedir rest missing totalsize
  end.

(** The job of one missing entry, part_000 lines 181-188. *)
Definition new_job (c : Repo) (packagedir : string) (p : PackageEntry)
  : DownloadJob :=
  {| Label := String_ p;
     URL := urljoin env (BaseURL c) (LocationHref p);
     Size := uint64 (PackageSize p);
     Path := filepath_Join env packagedir
               (filepath_Base env (LocationHref p));
     JobChecksum := Checksum p;
     JobChecksumType := ChecksumType p;
     Error := None |}.

(** The body of the completion loop for one received job, part_000 lines
    198-219.  [deferred] holds the files whose [Close] is deferred, the
    latest first. *)
Definition handle_job (keyring : option KeyRing) (job : DownloadJob)
           (deferred : list File) : M (list File) :=
  match Error job with
  | Some e =>
      Errorf e "Error downloading %s" [ArgString (Label job)] ;;
      ret deferred
  | None =>
      (* open downloaded package for reading *)
      r <- perform (os_Open env (Path job)) (EvOpen (Path job)) ;;
      match r with
      | Err err =>
          Errorf err "Error reading %s for GPG check"
                 [ArgString (Label job)] ;;
          ret deferred
      | Ok f =>
          (* gpg check *)
          g <- observe (rpm_GPGCheck env f keyring)
                       (EvGPGCheck f keyring) ;;
          match g with
          | Some err =>
              Errorf err "GPG check validation failed for %s"
                     [ArgString (Label job)] ;;
              (* delete bad package *)
              rm <- perform (os_Remove env (Path job))
                            (EvRemove (Path job)) ;;
              match rm with
              | Some err' =>
                  Errorf err' "Error deleting %v" [ArgString (Label job)]
              | None => ret tt
              end
          | None => ret tt
          end ;;
          ret (f :: deferred)
      end
  end.

(** [for job := range complete], over the jobs the channel delivers. *)
Fixpoint await (keyring : option KeyRing) (complete : list DownloadJob)
         (deferred : list File) : M (list File) :=
  match complete with
  | [] => ret deferred
  | job :: rest =>
      affect (delivered env job) (EvReceive job) ;;
      deferred' <- handle_job keyring job deferred ;;
      await keyring rest deferred'
  end.

(** The deferred [f.Close()] calls, run when [Sync] returns, last
    deferred first. *)
Fixpoint run_deferred (deferred : list File) : M unit :=
  match deferred with
  | [] => ret tt
  | f :: rest =>
      affect (File_Close env f) (EvClose f) ;;
      run_deferred rest
  end.

(** The steps of [Repo.Sync] before the diff, part_000 lines 91-134: the
    keyring, the directory listing and the filtered package list. *)
Definition setup (c : Repo) (cachedir packagedir : string)
  : M (option KeyRing * list FileInfo * list PackageEntry) :=
  (* load gpg keys *)
  keyring <- (if GPGCheck c then
                k <- try (observe (OpenKeyRing env (GPGKey c))
                                  (EvOpenKeyRing (GPGKey c))) ;;
                ret (Some k)
              else ret None) ;;
  (* cache repo metadata locally *)
  repocache <- map_err
                 (ErrWrap "Failed to cache metadata for repo %v: %v"
                          [ArgStringer (Repo_String c)])
                 (CacheLocal c cachedir) ;;
  (* get primary db from cache *)
  primarydb <- try (perform (PrimaryDB_ env repocache)
                            (EvPrimaryDB repocache)) ;;
  (* create package directory *)
  mk <- perform (os_MkdirAll env packagedir 488)
                (EvMkdirAll packagedir 488) ;;
  match mk with
  | Some err =>
      if negb (os_IsExist err) then
        fail (ErrWrap "Error creating local package path %s: %v"
                      [ArgString packagedir] err)
      else ret tt
  | None => ret tt
  end ;;
  (* list existing files *)
  files <- map_err (fun _ => ErrFormat "Error reading packages" [])
             (try (observe (ioutil_ReadDir env packagedir)
                           (EvReadDir packagedir))) ;;
  (* load packages from primary_db *)
  Dprintf ("Loading package metadata from primary_db..." ++ nl)%string [] ;;
  packages <- map_err
                (ErrWrap "Error reading packages from primary_db: %v" [])
                (try (observe (Packages env primarydb)
                              (EvPackages primarydb))) ;;
  (* filter list *)
  let packages := FilterPackages env c packages in
  Dprintf ("Found %d packages in primary_db" ++ nl)%string
          [ArgInt (len packages)] ;;
  ret (keyring, files, packages).

(** The diff and the job list, part_000 lines 136-189. *)
Definition plan (c : Repo) (packagedir : string) (files : list FileInfo)
           (packages : list PackageEntry) : M (list DownloadJob) :=
  Dprintf ("Checking for existing packages in %s..." ++ nl)%string
          [ArgString packagedir] ;;
  mt <- find_missing files packagedir packages [] 0 ;;
  Dprintf ("Scheduled %d packages for download (%s)" ++ nl)%string
          [ArgInt (len (fst mt));
           ArgString (bytefmt_ByteSize env (snd mt))] ;;
  (* schedule download jobs *)
  ret (map (new_job c packagedir) (fst mt)).

(** The download and the completion loop, part_000 lines 191-222. *)
Definition run_jobs (keyring : option KeyRing) (jobs : list DownloadJob)
  : M unit :=
  complete <- observe (Download env jobs) (fun _ => EvDownload jobs) ;;
  deferred <- await keyring complete [] ;;
  run_deferred deferred.

(** [Repo.Sync], part_000 lines 90-223.  [Ok tt] is [return nil]. *)
Definition Sync (c : Repo) (cachedir packagedir : string) : M unit :=
  s <- setup c cachedir packagedir ;;
  let '(keyring, files, packages) := s in
  jobs <- plan c packagedir files packages ;;
  run_jobs keyring jobs.

End Sync.

(** ** A small concrete world

    A disk of named contents, on which the definitions above can be run.
    The content of a file stands for its digest; the scenario says which
    collaborator calls fail. *)

Module Toy.

Record World : Type := mkWorld {
  disk : list (string * string);      (* path, content *)
  opened : list string                (* paths of the open files *)
}.

Record Scenario : Type := mkScenario {
  upstream : list PackageEntry;       (* what the primary database holds *)
  keyring : result KeyRing;           (* what OpenKeyRing answers *)
  update : option error;              (* what RepoCache.Update answers *)
  primary : result PrimaryDB;         (* what RepoCache.PrimaryDB answers *)
  mkdir : option error;               (* what os.MkdirAll answers *)
  listing : option error;             (* set when ioutil.ReadDir fails *)
  decoding : option error;            (* set when Packages fails *)
  unreachable : list string;          (* URLs whose download fails *)
  unreadable : list string;           (* paths os.Open refuses *)
  unsigned : list string;             (* paths whose signature is bad *)
  undeletable : list string           (* paths os.Remove refuses *)
}.

Definition mem (s : string) (l : list string) : bool :=
  existsb (String.eqb s) l.

Fixpoint lookup (path : string) (d : list (string * string))
  : option string :=
  match d with
  | [] => None
  | (q, content) :: rest =>
      if String.eqb path q then Some content else lookup path rest
  end.

Definition delete (path : string) (d : list (string * string))
  : list (string * string) :=
  filter (fun e => negb (String.eqb path (fst e))) d.

Definition write (path content : string) (d : list (string * string))
  : list (string * string) :=
  (path, content) :: delete path d.

(** The text after the last slash. *)
Fixpoint base (s : string) : string :=
  match s with
  | EmptyString => EmptyString
  | String ch rest =>
      if existsb (Ascii.eqb "/"%char) (list_ascii_of_string rest)
      then base rest
      else if Ascii.eqb ch "/"%char then rest else s
  end.

Definition join (a b : string) : string := (a ++ "/" ++ b)%string.

(** The directory part of a path written by [join]. *)
Definition dir (s : string) : string :=
  substring 0 (String.length s - String.length (base s) - 1) s.

Definition list_dir (path : string) (d : list (string * string))
  : list FileInfo :=
  map (fun e => mkFileInfo (base (fst e)))
      (filter (fun e => String.eqb (dir (fst e)) path) d).

Definition fetch (sc : Scenario) (job : DownloadJob) : DownloadJob :=
  if mem (URL job) (unreachable sc)
  then {| Label := Label job; URL := URL job; Size := Size job;
          Path := Path job; JobChecksum := JobChecksum job;
          JobChecksumType := JobChecksumType job;
          Error := Some (ErrForeign "connection refused") |}
  else job.

Definition env (sc : Scenario) : Env World :=
  {| OpenKeyRing := fun _ _ => keyring sc;
     NewCache := fun _ w => (Ok (CacheRef 0), w);
     NewRepoCache := fun _ _ w => (Ok (RepoCacheRef 0), w);
     Update := fun _ w => (update sc, w);
     PrimaryDB_ := fun _ w => (primary sc, w);
     os_MkdirAll := fun _ _ w => (mkdir sc, w);
     ioutil_ReadDir := fun path w =>
       match listing sc with
       | Some e => Err e
       | None => Ok (list_dir path (disk w))
       end;
     Packages := fun _ _ =>
       match decoding sc with
       | Some e => Err e
       | None => Ok (upstream sc)
       end;
     FilterPackages := fun _ ps => ps;
     filepath_Base := base;
     filepath_Join := join;
     urljoin := join;
     bytefmt_ByteSize := fun n => (Fmt.itoa n ++ "B")%string;
     yum_ValidateFileChecksum := fun path checksum _ w =>
       match lookup path (disk w) with
       | Some content =>
           if String.eqb content checksum then None
           else Some ErrChecksumMismatch
       | None => Some (ErrForeign "no such file")
       end;
     Download := fun jobs _ => map (fetch sc) jobs;
     delivered := fun job w =>
       match Error job with
       | None => mkWorld (write (Path job) (JobChecksum job) (disk w))
                         (opened w)
       | Some _ => w
       end;
     os_Open := fun path w =>
       match lookup path (disk w) with
       | Some _ =>
           if mem path (unreadable sc)
           then (Err (ErrForeign "permission denied"), w)
           else (Ok (FileRef (N.of_nat (List.length (opened w)))),
                 mkWorld (disk w) (opened w ++ [path]))
       | None => (Err (ErrForeign "no such file"), w)
       end;
     rpm_GPGCheck := fun f kr w =>
       match f, kr with
       | FileRef fd, Some _ =>
           if mem (nth (N.to_nat fd) (opened w) EmptyString) (unsigned sc)
           then Some (ErrForeign "signature does not verify")
           else None
       | _, None => Some (ErrForeign "no keyring")
       end;
     os_Remove := fun path w =>
       if mem path (undeletable sc)
       then (Some (ErrForeign "operation not permitted"), w)
       else match lookup path (disk w) with
            | Some _ => (None, mkWorld (delete path (disk w)) (opened w))
            | None => (Some (ErrForeign "no such file"), w)
            end;
     File_Close := fun _ w => w |}.

(** Three upstream packages, the first of them already mirrored. *)
Definition pkg (name : string) (size : Z) : PackageEntry :=
  {| String_ := name;
     LocationHref := ("Packages/" ++ name ++ ".rpm")%string;
     Checksum := ("sha:" ++ name)%string;
     ChecksumType := "sha256";
     PackageSize := size |}.

Definition a := pkg "a-1.0" 100.
Definition b := pkg "b-2.0" 200.
Definition c := pkg "c-3.0" 300.

Definition calm : Scenario :=
  {| upstream := [a; b; c];
     keyring := Ok (KeyRingRef 1);
     update := None;
     primary := Ok (PrimaryDBRef 0);
     mkdir := None;
     listing := None;
     decoding := None;
     unreachable := [];
     unreadable := [];
     unsigned := [];
     undeletable := [] |}.

Definition world0 : World :=
  mkWorld [("mirror/a-1.0.rpm", "sha:a-1.0")] [].

Definition R1 : Repo :=
  {| ID := "R1"; Name := ""; Architecture := "";
     BaseURL := "http://upstream/r1"; CachePath := ""; Checksum_ := "";
     DeleteRemoved := false; GPGCheck := true; GPGKey := "RPM-GPG-KEY";
     Groupfile := ""; IncludeSources := false; LocalPath := "mirror";
     MirrorURL := ""; NewOnly := false; MaxDate := 0; MinDate := 0;
     YumfileLineNo := 3; YumfilePath := "Yumfile" |}.

End Toy.

(** ** What the specification says, as definitions *)

Definition is_nil {A} (o : option A) : bool :=
  match o with
  | None => true
  | Some _ => false
  end.

Section Desired.

Context {W : Type} (env : Env W).

(** The listing holds a file of that name. *)
Definition has_name (files : list FileInfo) (name : string) : bool :=
  existsb (fun f => String.eqb (FileName f) name) files.

(** The entry has a local file, named as the base name of its location,
    whose checksum validates in world [w]. *)
Definition valid_local (files : list FileInfo) (packagedir : string)
           (w : W) (p : PackageEntry) : bool :=
  has_name files (filepath_Base env (LocationHref p))
  && is_nil (yum_ValidateFileChecksum env
               (filepath_Join env packagedir
                  (filepath_Base env (LocationHref p)))
               (Checksum p) (ChecksumType p) w).

(** The entries without a valid local file, in order. *)
Definition missing_entries (files : list FileInfo) (packagedir : string)
           (w : W) (packages : list PackageEntry) : list PackageEntry :=
  filter (fun p => negb (valid_local files packagedir w p)) packages.

Definition planned_jobs (c : Repo) (files : list FileInfo)
           (packagedir : string) (w : W) (packages : list PackageEntry)
  : list DownloadJob :=
  map (new_job env c packagedir)
      (missing_entries files packagedir w packages).

End Desired.

(** The sum of the declared sizes, as a mathematical integer. *)
Definition declared_total (l : list PackageEntry) : Z :=
  fold_right Z.add 0 (map PackageSize l).

(** One step of the running total, part_000 line 171. *)
Definition add_size (totalsize : Z) (p : PackageEntry) : Z :=
  uint64 (totalsize + uint64 (PackageSize p)).

(** ** Classes of calls *)

(** Checksum validations and log lines: all the diff may do. *)
Definition diff_event (ev : event) : bool :=
  match ev with
  | EvValidateFileChecksum _ _ _ _ | EvDprintf _ _ | EvErrorf _ _ _ => true
  | _ => false
  end.

Definition is_download (ev : event) : bool :=
  match ev with
  | EvDownload _ => true
  | _ => false
  end.

Definition is_gpgcheck (ev : event) : bool :=
  match ev with
  | EvGPGCheck _ _ _ => true
  | _ => false
  end.

Definition is_remove (ev : event) : bool :=
  match ev with
  | EvRemove _ _ => true
  | _ => false
  end.

Definition failed {A} (r : result A) : bool :=
  match r with
  | Ok _ => false
  | Err _ => true
  end.

(** A setup call that came back with an error: keyring loading, metadata
    caching (its three steps), primary database, directory creation,
    directory listing, package-list decoding. *)
Definition failed_call (ev : event) : bool :=
  match ev with
  | EvOpenKeyRing _ r => failed r
  | EvNewCache _ r => failed r
  | EvNewRepoCache _ _ r => failed r
  | EvUpdate _ r => negb (is_nil r)
  | EvPrimaryDB _ r => failed r
  | EvMkdirAll _ _ r => negb (is_nil r)
  | EvReadDir _ r => failed r
  | EvPackages _ r => failed r
  | _ => false
  end.

(** The same, leaving out the answer of [os.MkdirAll] that
    [os.IsExist] accepts. *)
Definition fatal_call (ev : event) : bool :=
  match ev with
  | EvMkdirAll _ _ (Some e) => negb (os_IsExist e)
  | _ => failed_call ev
  end.

(** Calls of the completion loop and of the deferred closes. *)
Definition loop_event (ev : event) : bool :=
  match ev with
  | EvReceive _ | EvOpen _ _ | EvGPGCheck _ _ _ | EvRemove _ _
  | EvClose _ | EvErrorf _ _ _ => true
  | _ => false
  end.

(** The sentence of the specification on the running total, read to the
    letter: it is the sum of the declared sizes of the missing entries. *)
Definition total_is_declared_sum {W} (env : Env W) (files : list FileInfo)
           (packagedir : string) (packages : list PackageEntry) (w : W)
  : Prop :=
  let '(r, _, _) := find_missing env files packagedir packages [] 0 w in
  match r with
  | Ok (missing, totalsize) => totalsize = declared_total missing
  | Err _ => False
  end.

(** ** Scenarios on the small world *)

Module Scenarios.

Import Toy.

(** The key file cannot be read. *)
Definition no_key : Scenario :=
  {| upstream := [a; b; c];
     keyring := Err (ErrForeign "open RPM-GPG-KEY: no such file");
     update := None;
     primary := Ok (PrimaryDBRef 0);
     mkdir := None;
     listing := None;
     decoding := None;
     unreachable := [];
     unreadable := [];
     unsigned := [];
     undeletable := [] |}.

(** [b-2.0] carries a bad signature, [c-3.0] cannot be opened. *)
Definition rough : Scenario :=
  {| upstream := [a; b; c];
     keyring := Ok (KeyRingRef 1);
     update := None;
     primary := Ok (PrimaryDBRef 0);
     mkdir := None;
     listing := None;
     decoding := None;
     unreachable := [];
     unreadable := ["mirror/c-3.0.rpm"];
     unsigned := ["mirror/b-2.0.rpm"];
     undeletable := [] |}.

(** Three entries of the largest signed 64-bit size. *)
Definition huge : list PackageEntry :=
  [pkg "x-1" (2 ^ 63 - 1); pkg "y-1" (2 ^ 63 - 1); pkg "z-1" (2 ^ 63 - 1)].

Definition heavy : Scenario :=
  {| upstream := huge;
     keyring := Ok (KeyRingRef 1);
     update := None;
     primary := Ok (PrimaryDBRef 0);
     mkdir := None;
     listing := None;
     decoding := None;
     unreachable := [];
     unreadable := [];
     unsigned := [];
     undeletable := [] |}.

Definition with_GPGCheck (g : bool) (r : Repo) : Repo :=
  {| ID := ID r; Name := Name r; Architecture := Architecture r;
     BaseURL := BaseURL r; CachePath := CachePath r;
     Checksum_ := Checksum_ r; DeleteRemoved := DeleteRemoved r;
     GPGCheck := g; GPGKey := GPGKey r; Groupfile := Groupfile r;
     IncludeSources := IncludeSources r; LocalPath := LocalPath r;
     MirrorURL := MirrorURL r; NewOnly := NewOnly r;
     MaxDate := MaxDate r; MinDate := MinDate r;
     YumfileLineNo := YumfileLineNo r; YumfilePath := YumfilePath r |}.

Definition with_URLs (base mirror : string) (r : Repo) : Repo :=
  {| ID := ID r; Name := Name r; Architecture := Architecture r;
     BaseURL := base; CachePath := CachePath r;
     Checksum_ := Checksum_ r; DeleteRemoved := DeleteRemoved r;
     GPGCheck := GPGCheck r; GPGKey := GPGKey r; Groupfile := Groupfile r;
     IncludeSources := IncludeSources r; LocalPath := LocalPath r;
     MirrorURL := mirror; NewOnly := NewOnly r;
     MaxDate := MaxDate r; MinDate := MinDate r;
     YumfileLineNo := YumfileLineNo r; YumfilePath := YumfilePath r |}.

(** [R1] with signature checking switched off. *)
Definition R1_nogpg : Repo := with_GPGCheck false R1.

(** [R1] known by a mirror list only. *)
Definition R1_mirrorlist : Repo :=
  with_URLs "" "http://mirrors/list?repo=r1" R1.

(** The sibling descriptor of [R1] for the reposync front end. *)
Definition M1 : Mirror.YumRepoMirror :=
  {| Mirror.YumRepo_ :=
       {| Mirror.ID := "R1"; Mirror.Name := "";
          Mirror.BaseURL := "http://upstream/r1";
          Mirror.MirrorListURL := "" |};
     Mirror.CachePath := ""; Mirror.EnablePlugins := false;
     Mirror.IncludeSources := false; Mirror.LocalPath := "mirror";
     Mirror.NewOnly := false; Mirror.DeleteRemoved := false;
     Mirror.GPGCheck := true; Mirror.Architecture := "";
     Mirror.YumfilePath := "Yumfile"; Mirror.YumfileLineNo := 3 |}.

End Scenarios.

(** ** Reading the record of calls *)

(** The files a stretch of calls opened, in order. *)
Definition opened_files (t : list event) : list File :=
  flat_map (fun ev => match ev with
                      | EvOpen _ (Ok f) => [f]
                      | _ => []
                      end) t.

(** The files a stretch of calls closed, in order. *)
Definition closed_files (t : list event) : list File :=
  flat_map (fun ev => match ev with
                      | EvClose f => [f]
                      | _ => []
                      end) t.

Definition is_validation (ev : event) : bool :=
  match ev with
  | EvValidateFileChecksum _ _ _ _ => true
  | _ => false
  end.

(** Calls of the setup. *)
Definition setup_event (ev : event) : bool :=
  match ev with
  | EvOpenKeyRing _ _ | EvNewCache _ _ | EvNewRepoCache _ _ _ | EvUpdate _ _
  | EvPrimaryDB _ _ | EvMkdirAll _ _ _ | EvReadDir _ _ | EvPackages _ _
  | EvDprintf _ _ => true
  | _ => false
  end.

(** The checksum validation of the local file of an entry, with the answer
    world [w] gives. *)
Definition validation_of {W} (env : Env W) (packagedir : string) (w : W)
           (p : PackageEntry) : event :=
  EvValidateFileChecksum
    (filepath_Join env packagedir (filepath_Base env (LocationHref p)))
    (Checksum p) (ChecksumType p)
    (yum_ValidateFileChecksum env
       (filepath_Join env packagedir (filepath_Base env (LocationHref p)))
       (Checksum p) (ChecksumType p) w).

(** The error [Repo.Sync] returns for a failed setup call, part_000 lines
    96-130; [None] for a call that does not end the run. *)
Definition returned_error (c : Repo) (packagedir : string) (ev : event)
  : option error :=
  match ev with
  | EvOpenKeyRing _ (Err e) => Some e
  | EvNewCache _ (Err e) | EvNewRepoCache _ _ (Err e) | EvUpdate _ (Some e) =>
      Some (ErrWrap "Failed to cache metadata for repo %v: %v"
                    [ArgStringer (Repo_String c)] e)
  | EvPrimaryDB _ (Err e) => Some e
  | EvMkdirAll _ _ (Some e) =>
      if os_IsExist e then None
      else Some (ErrWrap "Error creating local package path %s: %v"
                         [ArgString packagedir] e)
  | EvReadDir _ (Err _) => Some (ErrFormat "Error reading packages" [])
  | EvPackages _ (Err e) =>
      Some (ErrWrap "Error reading packages from primary_db: %v" [] e)
  | _ => None
  end.

(** The descriptor of the reposync front end with the identity, URLs and
    source location of a [Repo]. *)
Definition same_identity (c : Repo) (m : Mirror.YumRepoMirror) : Prop :=
  Mirror.ID (Mirror.YumRepo_ m) = ID c
  /\ Mirror.BaseURL (Mirror.YumRepo_ m) = BaseURL c
  /\ Mirror.MirrorListURL (Mirror.YumRepo_ m) = MirrorURL c
  /\ Mirror.YumfilePath m = YumfilePath c
  /\ Mirror.YumfileLineNo m = YumfileLineNo c.

(** ** The reposync front end, yumrepo_mirror.go *)

Module Reposync.

Import Mirror.

(** Constants, yumrepo_mirror.go lines 15-21. *)
Definition repoPrefix : string := "tmp-y10k-".
Definition repoFilePrefix : string := "tmp-y10k-".
Definition repoFileSuffix : string := ".repo".
Definition repoFileDir : string := "/etc/yum.repos.d".

(** The fields of [YumRepo] that [installRepoFile] reads besides those of
    [Mirror.YumRepo]. *)
Record YumRepoSettings : Type := mkYumRepoSettings {
  Enabled : bool;
  RepoGPGCheck : bool;               (* YumRepo.GPGCheck *)
  GPGKeyPath : string;
  Timeout : Z;
  Retries : Z
}.

(** Calls that leave the front end. *)
Inductive call : Type :=
| CleanUpTempFiles
| Create (path : string) (r : result File)
| Fprintf (f : File) (text : string)
| Close (f : File)
| Exec (name : string) (args : list string) (r : option error)
| Printf (format : string) (args : list fmtarg)
| Dprintf_ (format : string) (args : list fmtarg).

(** The collaborators of the front end over a world [W]; [boolMap] and
    [DebugMode] are package variables declared outside the source files. *)
Record Host (W : Type) : Type := mkHost {
  cleanUpTempFiles : W -> W;
  os_Create : string -> W -> result File * W;
  write : File -> string -> W -> W;        (* fmt.Fprintf, result dropped *)
  close : File -> W -> W;
  exec : string -> list string -> W -> option error * W;
  boolMap : bool -> Z;
  DebugMode : bool;
  runtime_NumCPU : Z;
  filepath_Abs : string -> string
}.

(** [repoFilePath], lines 65-67. *)
Definition repoFilePath (c : YumRepoMirror) : string :=
  Fmt.Sprintf "%s/%s%s%s"
    [ArgString repoFileDir; ArgString repoFilePrefix;
     ArgString (ID (YumRepo_ c)); ArgString repoFileSuffix].

(** [repoName], lines 69-71. *)
Definition repoName (c : YumRepoMirror) : string :=
  Fmt.Sprintf "%s%s" [ArgString repoPrefix; ArgString (ID (YumRepo_ c))].

Definition when (b : bool) (l : list string) : list string :=
  if b then l else [].

Section Front.

Context {W : Type} (host : Host W).

(** [FullLocalPath], lines 60-63; the error of [filepath.Abs] is dropped. *)
Definition FullLocalPath (c : YumRepoMirror) : string :=
  filepath_Abs host (LocalPath c).

(** The texts [installRepoFile] prints to the repo file, one per
    [fmt.Fprintf], lines 88-115. *)
Definition repo_file_texts (c : YumRepoMirror) (o : YumRepoSettings)
  : list string :=
  let y := YumRepo_ c in
  [Fmt.Sprintf ("[%s]" ++ nl) [ArgString (repoName c)]]
  ++ when (negb (is_empty (Name y)))
       [Fmt.Sprintf ("name=%s" ++ nl) [ArgString (Name y)]]
  ++ (if negb (is_empty (MirrorListURL y)) then
        [Fmt.Sprintf ("mirrorlist=%s" ++ nl) [ArgString (MirrorListURL y)]]
      else if negb (is_empty (BaseURL y)) then
        [Fmt.Sprintf ("baseurl=%s" ++ nl) [ArgString (BaseURL y)]]
      else [])
  ++ [Fmt.Sprintf ("enabled=%d" ++ nl) [ArgInt (boolMap host (Enabled o))];
      Fmt.Sprintf ("gpgcheck=%d" ++ nl)
        [ArgInt (boolMap host (RepoGPGCheck o))]]
  ++ when (negb (is_empty (GPGKeyPath o)))
       [Fmt.Sprintf ("gpgkey=%s" ++ nl) [ArgString (GPGKeyPath o)]]
  ++ when (0 <? Timeout o)
       [Fmt.Sprintf ("timeout=%d" ++ nl) [ArgInt (Timeout o)]]
  ++ when (0 <? Retries o)
       [Fmt.Sprintf ("retries=%d" ++ nl) [ArgInt (Retries o)]]
  ++ [Fmt.Sprintf nl []].

(** [installRepoFile], lines 73-118: the returned error, the world left
    and the calls made.  The deferred [f.Close()] runs on return. *)
Definition installRepoFile (c : YumRepoMirror) (o : YumRepoSettings) (w : W)
  : option error * W * list call :=
  let repoFilePath := repoFilePath c in
  match os_Create host repoFilePath w with
  | (Err err, w1) =>
      (Some err, w1,
       [Dprintf_ ("Installing repo file: %s" ++ nl) [ArgString repoFilePath];
        Create repoFilePath (Err err)])
  | (Ok f, w1) =>
      (None,
       close host f
         (fold_left (fun w' text => write host f text w')
                    (repo_file_texts c o) w1),
       [Dprintf_ ("Installing repo file: %s" ++ nl) [ArgString repoFilePath];
        Create repoFilePath (Ok f)]
       ++ map (Fprintf f) (repo_file_texts c o)
       ++ [Close f])
  end.

(** The arguments of reposync, lines 134-164. *)
Definition Sync_args (c : YumRepoMirror) : list string :=
  [Fmt.Sprintf "--repoid=%s%s"
     [ArgString repoPrefix; ArgString (ID (YumRepo_ c))];
   "--norepopath";
   "--quiet"]
  ++ when (NewOnly c) ["--newest-only"]
  ++ when (IncludeSources c) ["--source"]
  ++ when (DeleteRemoved c) ["--delete"]
  ++ when (GPGCheck c) ["--gpgcheck"]
  ++ when (negb (is_empty (Architecture c)))
       [Fmt.Sprintf "--arch=%s" [ArgString (Architecture c)]]
  ++ [if negb (is_empty (LocalPath c))
      then Fmt.Sprintf "--download_path=%s" [ArgString (LocalPath c)]
      else Fmt.Sprintf "--download_path=./%s" [ArgString (ID (YumRepo_ c))]].

(** [YumRepoMirror.Sync], lines 120-172.  The deferred
    [cleanUpTempFiles()] runs on every return. *)
Definition Sync (c : YumRepoMirror) (o : YumRepoSettings) (w : W)
  : option error * W * list call :=
  let w0 := cleanUpTempFiles host w in
  match installRepoFile c o w0 with
  | (Some err, w1, t1) =>
      (Some err, cleanUpTempFiles host w1,
       CleanUpTempFiles :: t1 ++ [CleanUpTempFiles])
  | (None, w1, t1) =>
      let args := Sync_args c in
      let r := exec host "reposync" args w1 in
      (fst r, cleanUpTempFiles host (snd r),
       CleanUpTempFiles :: t1
       ++ [Printf ("Syncronizing repo: %s" ++ nl)
             [ArgString (ID (YumRepo_ c))];
           Exec "reposync" args (fst r);
           CleanUpTempFiles])
  end.

(** The arguments of createrepo, lines 178-195. *)
Definition Update_args (c : YumRepoMirror) : list string :=
  ["--update";
   "--database";
   "--checkts";
   Fmt.Sprintf "--workers=%d" [ArgInt (runtime_NumCPU host)]]
  ++ when (DebugMode host) ["--verbose"; "--profile"]
  ++ [if negb (is_empty (LocalPath c))
      then LocalPath c
      else Fmt.Sprintf "./%s" [ArgString (ID (YumRepo_ c))]].

(** [YumRepoMirror.Update], lines 174-203. *)
Definition Update (c : YumRepoMirror) (w : W)
  : option error * W * list call :=
  let args := Update_args c in
  let r := exec host "createrepo" args w in
  (fst r, snd r,
   [Printf ("Updating repo database: %s" ++ nl)
      [ArgString (ID (YumRepo_ c))];
    Exec "createrepo" args (fst r)]).

End Front.

(** *** The scanner of [QueryAll] *)

(** An [RpmFile] as [QueryAll] fills it; a [time.Time] built by
    [time.Unix(sec, 0)] is its number of seconds. *)
Record RpmFile : Type := mkRpmFile {
  RpmName : string;
  Version : string;
  Release : string;
  BuildTime : Z;
  FileTime : Z
}.

(** [strings.Split(s, " ")]: the stretches between single spaces; an
    empty text gives one empty stretch. *)
Fixpoint Split (s : string) : list string :=
  match s with
  | EmptyString => [EmptyString]
  | String ch rest =>
      if Ascii.eqb ch " "%char then EmptyString :: Split rest
      else match Split rest with
           | head :: tail => String ch head :: tail
           | [] => [String ch EmptyString]
           end
  end.

(** The value of a decimal digit. *)
Definition digit (ch : ascii) : option Z :=
  let code := Z.of_nat (nat_of_ascii ch) in
  if (48 <=? code) && (code <=? 57) then Some (code - 48) else None.

Inductive num_error : Type :=
| NoError
| ErrSyntax
| ErrRange.

(** [strconv.ParseUint(s, 10, 64)] from the value [n] of the digits read
    so far.  The bytes are taken from left to right: a byte that is no
    digit is a syntax error, worth 0; a digit that takes the value past
    2^64 - 1 is a range error, worth 2^64 - 1, whatever follows it. *)
Fixpoint ParseUint_from (s : string) (n : Z) : Z * num_error :=
  match s with
  | EmptyString => (n, NoError)
  | String ch rest =>
      match digit ch with
      | None => (0, ErrSyntax)
      | Some d =>
          if 2 ^ 64 <=? 10 * n + d then (2 ^ 64 - 1, ErrRange)
          else ParseUint_from rest (10 * n + d)
      end
  end.

(** [strconv.Atoi] for a 64-bit [int]: an optional sign, then
    [ParseUint] on what follows, which must not be empty.  The value is 0
    with a syntax error and the nearest bound with a range error; the flag
    says whether the error is nil. *)
Definition Atoi (s : string) : Z * bool :=
  let signed :=
    match s with
    | String "-"%char body => (true, body)
    | String "+"%char body => (false, body)
    | _ => (false, s)
    end in
  match snd signed with
  | EmptyString => (0, false)
  | body =>
      match ParseUint_from body 0 with
      | (_, ErrSyntax) => (0, false)
      | (un, _) =>
          if fst signed
          then if 2 ^ 63 <? un then (- 2 ^ 63, false) else (- un, true)
          else if 2 ^ 63 <=? un then (2 ^ 63 - 1, false) else (un, true)
      end
  end.

(** The number written by decimal digits, from the value [n] of the
    digits before them. *)
Fixpoint digits_value (d : Decimal.uint) (n : Z) : Z :=
  match d with
  | Decimal.Nil => n
  | Decimal.D0 l => digits_value l (10 * n + 0)
  | Decimal.D1 l => digits_value l (10 * n + 1)
  | Decimal.D2 l => digits_value l (10 * n + 2)
  | Decimal.D3 l => digits_value l (10 * n + 3)
  | Decimal.D4 l => digits_value l (10 * n + 4)
  | Decimal.D5 l => digits_value l (10 * n + 5)
  | Decimal.D6 l => digits_value l (10 * n + 6)
  | Decimal.D7 l => digits_value l (10 * n + 7)
  | Decimal.D8 l => digits_value l (10 * n + 8)
  | Decimal.D9 l => digits_value l (10 * n + 9)
  end.

(** The debug line of a field that is no integer. *)
Definition not_an_integer (field : string) : call :=
  Dprintf_ ("Cannot convert string '%s' to an integer" ++ nl)
           [ArgString field].

(** The body of the scan loop of [QueryAll] for one line of output, lines
    229-248: the record appended to the results, with the debug lines
    printed.  [None] is the run-time panic of an index out of range. *)
Definition scan_line (text : string) : option RpmFile * list call :=
  let fields := Split text in
  match nth_error fields 3 with
  | None => (None, [])
  | Some field3 =>
      let buildTime := Atoi field3 in
      let t3 := if snd buildTime then [] else [not_an_integer field3] in
      match nth_error fields 4 with
      | None => (None, t3)
      | Some field4 =>
          let fileTime := Atoi field4 in
          let t4 := if snd fileTime then [] else [not_an_integer field4] in
          (Some {| RpmName := nth 0 fields EmptyString;
                   Version := nth 1 fields EmptyString;
                   Release := nth 2 fields EmptyString;
                   BuildTime := fst buildTime;
                   FileTime := fst fileTime |},
           t3 ++ t4)
      end
  end.

(** The text has no space in it. *)
Definition spaceless (s : string) : bool :=
  forallb (fun ch => negb (Ascii.eqb ch " "%char)) (list_ascii_of_string s).

(** A line of repoquery output in the format of [repoqueryFormat]. *)
Definition query_line (name version release : string) (build file : Z)
  : string :=
  (name ++ " " ++ version ++ " " ++ release ++ " "
        ++ Fmt.itoa build ++ " " ++ Fmt.itoa file)%string.

(** *** A host to run the front end on *)

(** The world is the list of files written, the latest first. *)
Definition plain (writable : bool) (reposync : option error)
  : Host (list (string * string)) :=
  {| cleanUpTempFiles := fun w => w;
     os_Create := fun path w =>
       if writable then (Ok (FileRef 3), (path, EmptyString) :: w)
       else (Err (ErrForeign "permission denied"), w);
     write := fun _ text w =>
       match w with
       | (path, content) :: rest => (path, (content ++ text)%string) :: rest
       | [] => []
       end;
     close := fun _ w => w;
     exec := fun name _ w =>
       (if String.eqb name "reposync" then reposync else None, w);
     boolMap := fun b => if b then 1 else 0;
     DebugMode := false;
     runtime_NumCPU := 4;
     filepath_Abs := fun p => ("/srv/" ++ p)%string |}.

Definition settings : YumRepoSettings :=
  {| Enabled := true; RepoGPGCheck := true;
     GPGKeyPath := "/etc/pki/rpm-gpg/RPM-GPG-KEY";
     Timeout := 30; Retries := 0 |}.

Definition starts_with (prefix s : string) : bool := String.prefix prefix s.

End Reposync.

Module Flaky.

Import Toy.

(** The download of [b-2.0] fails. *)
Definition flaky : Scenario :=
  {| upstream := [a; b; c];
     keyring := Ok (KeyRingRef 1);
     update := None;
     primary := Ok (PrimaryDBRef 0);
     mkdir := None;
     listing := None;
     decoding := None;
     unreachable := ["http://upstream/r1/Packages/b-2.0.rpm"];
     unreadable := [];
     unsigned := [];
     undeletable := [] |}.

End Flaky.

(** The number of spaces in a text. *)
Fixpoint spaces (s : string) : nat :=
  match s with
  | EmptyString => O
  | String ch rest =>
      if Ascii.eqb ch " "%char then S (spaces rest) else spaces rest
  end.

(** A text of the repo file that names a source of packages. *)
Definition source_line (text : string) : bool :=
  Reposync.starts_with "mirrorlist=" text
  || Reposync.starts_with "baseurl=" text.

(** ** Calls that do not return *)

(** [rpm.GPGCheck] looks the signer of a signed package up in the keyring.
    With the nil keyring that is a method call on a nil interface value: a
    run-time panic, not an error.  [rpm_GPGCheck] of [Env] is the answer
    of a call that returns; [signed] tells whether the package read
    through the file carries a signature, so that the check gets as far as
    the keyring. *)
Record Faults (W : Type) : Type := mkFaults {
  signed : File -> W -> bool
}.

(** How a run of [Repo.Sync] ends: it returns, or [rpm.GPGCheck(f,
    keyring)] panics and the run unwinds. *)
Inductive ending : Type :=
| Returns (r : result unit)
| Panics (f : File) (keyring : option KeyRing).

Section Panic.

Context {W : Type} (env : Env W) (faults : Faults W).

Definition check_panics (keyring : option KeyRing) (f : File) (w : W)
  : bool :=
  match keyring with
  | None => signed faults f w
  | Some _ => false
  end.

(** The file and world at which the check of a received job panics: the
    job has no download error, its file opens, and the check does not
    return. *)
Definition job_panics (keyring : option KeyRing) (job : DownloadJob) (w : W)
  : option (File * W) :=
  match Error job with
  | Some _ => None
  | None =>
      match os_Open env (Path job) w with
      | (Ok f, wo) => if check_panics keyring f wo then Some (f, wo) else None
      | (Err _, _) => None
      end
  end.

(** [for job := range complete], part_000 lines 197-220, up to a check
    that panics: the file of the panic if any, the deferred closes, the
    world and the calls.  The close of the file under check is deferred
    before the check is called (line 206). *)
Fixpoint await_or_panic (keyring : option KeyRing)
         (complete : list DownloadJob) (deferred : list File) (w : W)
  : option File * list File * W * list event :=
  match complete with
  | [] => (None, deferred, w, [])
  | job :: rest =>
      let wj := delivered env job w in
      match job_panics keyring job wj with
      | Some (f, wo) =>
          (Some f, f :: deferred, wo,
           [EvReceive job; EvOpen (Path job) (Ok f)])
      | None =>
          match handle_job env keyring job deferred wj with
          | (Ok deferred', w', seg) =>
              match await_or_panic keyring rest deferred' w' with
              | (p, d, w'', t) => (p, d, w'', EvReceive job :: seg ++ t)
              end
          | (Err _, w', seg) => (None, deferred, w', EvReceive job :: seg)
          end
      end
  end.

(** [Repo.Sync], part_000 lines 90-223, with the panic of a signature
    check.  The deferred closes run on return and on unwinding alike. *)
Definition Sync_or_panic (c : Repo) (cachedir packagedir : string) (w : W)
  : ending * W * list event :=
  match setup env c cachedir packagedir w with
  | (Err e, w1, t1) => (Returns (Err e), w1, t1)
  | (Ok (keyring, files, packages), w1, t1) =>
      match plan env c packagedir files packages w1 with
      | (Err e, w2, t2) => (Returns (Err e), w2, t1 ++ t2)
      | (Ok jobs, w2, t2) =>
          match await_or_panic keyring (Download env jobs w2) [] w2 with
          | (p, deferred, w3, t3) =>
              match run_deferred env deferred w3 with
              | (_, w4, t4) =>
                  (match p with
                   | Some f => Panics f keyring
                   | None => Returns (Ok tt)
                   end,
                   w4, t1 ++ t2 ++ EvDownload jobs :: t3 ++ t4)
              end
          end
      end
  end.



End Panic.


(** The sentence on the expected size of a job, read to the letter: it is
    the declared size of the entry. *)
Definition job_size_is_declared {W} (env : Env W) (c : Repo)
           (packagedir : string) (p : PackageEntry) : Prop :=
  Size (new_job env c packagedir p) = PackageSize p.

Module Signed.

Import Toy.

(** The packages at the paths given are signed. *)
Definition faults (paths : list string) : Faults World :=
  {| signed := fun f w =>
       match f with
       | FileRef fd => mem (nth (N.to_nat fd) (opened w) EmptyString) paths
       end |}.



(** An entry whose declared size is negative. *)
Definition odd : PackageEntry := pkg "w-1" (-1).

End Signed.

(** What a file system does: [os.MkdirAll] answers already-exists only
    when something that is no directory is in the way, and the path can
    then not be listed. *)
Definition exists_means_no_directory {W} (env : Env W) : Prop :=
  forall path perm w e w',
    os_MkdirAll env path perm w = (Some e, w') ->
    os_IsExist e = true ->
    failed (ioutil_ReadDir env path w') = true.

(** * Properties *)

(** ** The definitions at work *)

Example itoa_line :
  Fmt.itoa 12 = "12" /\ Fmt.itoa 0 = "0" /\ Fmt.itoa (-7) = "-7".
Proof. repeat split. Qed.

Example Sprintf_location :
  Fmt.Sprintf "no ID specified (in %s:%d)" [ArgString "Yumfile"; ArgInt 12]
  = "no ID specified (in Yumfile:12)".
Proof. reflexivity. Qed.

Example Validate_without_ID :
  option_map error_text
    (fst (Validate (Scenarios.with_URLs "" "" Toy.R1)))
  = Some (Some "Upstream repository for 'R1' has no mirror list or base URL (in Yumfile:3)").
Proof. reflexivity. Qed.

(** The scenario of the specification: [a-1.0] valid on disk, [b-2.0] and
    [c-3.0] fetched, nothing removed. *)
Example Sync_R1 :
  let run := Sync (Toy.env Toy.calm) Toy.R1 "cache" "mirror" Toy.world0 in
  fst (fst run) = Ok tt
  /\ map fst (Toy.disk (snd (fst run)))
     = ["mirror/c-3.0.rpm"; "mirror/b-2.0.rpm"; "mirror/a-1.0.rpm"]
  /\ existsb is_remove (snd run) = false.
Proof. repeat split. Qed.

(** ** Runs of the diff *)

Section DiffFacts.

Context {W : Type} (env : Env W).

Lemma has_name_spec (files : list FileInfo) (name : string) :
  has_name files name = true <->
  exists f, In f files /\ FileName f = name.
Proof.
  unfold has_name. rewrite existsb_exists.
  split; intros [f [Hin Hf]]; exists f; split; auto.
  - now apply String.eqb_eq.
  - now apply String.eqb_eq.
Qed.

Lemma valid_local_spec (files : list FileInfo) (packagedir : string)
      (w : W) (p : PackageEntry) :
  valid_local env files packagedir w p = true <->
  exists f, In f files
            /\ FileName f = filepath_Base env (LocationHref p)
            /\ yum_ValidateFileChecksum env
                 (filepath_Join env packagedir
                    (filepath_Base env (LocationHref p)))
                 (Checksum p) (ChecksumType p) w = None.
Proof.
  unfold valid_local. rewrite andb_true_iff, has_name_spec.
  split.
  - intros [[f [Hin Hf]] Hv]. exists f. repeat split; auto.
    destruct (yum_ValidateFileChecksum _ _ _ _ _); [discriminate | auto].
  - intros [f [Hin [Hf Hv]]]. split; [now exists f | now rewrite Hv].
Qed.

(** The inner loop answers whether a file of that name exists and
    validates; it leaves the world as it found it. *)
Lemma search_local_run (files : list FileInfo) (name path : string)
      (p : PackageEntry) (w : W) :
  exists t,
    search_local env files name path p w
    = (Ok (has_name files name
           && is_nil (yum_ValidateFileChecksum env path
                        (Checksum p) (ChecksumType p) w)), w, t)
    /\ forallb diff_event t = true.
Proof.
  induction files as [|f rest IH]; simpl.
  - exists []. auto.
  - destruct (String.eqb (FileName f) name); simpl.
    + unfold bind, observe, Errorf, emit, ret.
      destruct (yum_ValidateFileChecksum env path _ _ w) as [e|];
        [destruct e|]; simpl; eexists; split; reflexivity.
    + exact IH.
Qed.

(** The outer loop keeps the entries without a valid local file. *)
Lemma find_missing_run (files : list FileInfo) (packagedir : string)
      (packages missing : list PackageEntry) (totalsize : Z) (w : W) :
  exists t,
    find_missing env files packagedir packages missing totalsize w
    = (Ok (missing ++ missing_entries env files packagedir w packages,
           fold_left add_size
             (missing_entries env files packagedir w packages) totalsize),
       w, t)
    /\ forallb diff_event t = true.
Proof.
  revert missing totalsize.
  induction packages as [|p rest IH]; intros missing totalsize; simpl.
  - exists []. rewrite app_nil_r. auto.
  - destruct (search_local_run files (filepath_Base env (LocationHref p))
                (filepath_Join env packagedir
                   (filepath_Base env (LocationHref p))) p w)
      as [t1 [H1 Q1]].
    unfold bind at 1. rewrite H1.
    fold (valid_local env files packagedir w p).
    destruct (valid_local env files packagedir w p); simpl.
    + destruct (IH missing totalsize) as [t2 [H2 Q2]].
      rewrite H2. exists (t1 ++ t2). split; [reflexivity|].
      rewrite forallb_app, Q1, Q2. reflexivity.
    + destruct (IH (missing ++ [p]) (add_size totalsize p))
        as [t2 [H2 Q2]].
      unfold add_size in H2 at 1. rewrite H2.
      exists (t1 ++ t2). split.
      * rewrite <- app_assoc. reflexivity.
      * rewrite forallb_app, Q1, Q2. reflexivity.
Qed.

(** The diff and the job list: the world is untouched, the calls are
    validations and log lines, the last of which reports the total. *)
Lemma plan_run (c : Repo) (packagedir : string) (files : list FileInfo)
      (packages : list PackageEntry) (w : W) :
  exists t,
    plan env c packagedir files packages w
    = (Ok (planned_jobs env c files packagedir w packages), w,
       t ++ [EvDprintf ("Scheduled %d packages for download (%s)" ++ nl)
               [ArgInt (len (missing_entries env files packagedir w
                               packages));
                ArgString
                  (bytefmt_ByteSize env
                     (fold_left add_size
                        (missing_entries env files packagedir w packages)
                        0))]])
    /\ forallb diff_event t = true.
Proof.
  destruct (find_missing_run files packagedir packages [] 0 w)
    as [t [H Q]].
  unfold plan, bind, Dprintf, emit, ret. rewrite H. simpl.
  eexists (_ :: t). split.
  - reflexivity.
  - simpl. exact Q.
Qed.

End DiffFacts.

(** ** Runs of the completion loop and of the whole synchronisation *)

Section LoopFacts.

Context {W : Type} (env : Env W).

(** The events of handling a job whose download failed. *)
Lemma handle_job_download_error (keyring : option KeyRing)
      (job : DownloadJob) (deferred : list File) (w : W) (e : error) :
  Error job = Some e ->
  handle_job env keyring job deferred w
  = (Ok deferred, w,
     [EvErrorf e "Error downloading %s" [ArgString (Label job)]]).
Proof.
  intros H. unfold handle_job. rewrite H. reflexivity.
Qed.

(** The events of handling a job whose file cannot be opened. *)
Lemma handle_job_open_error (keyring : option KeyRing)
      (job : DownloadJob) (deferred : list File) (w w1 : W) (err : error) :
  Error job = None ->
  os_Open env (Path job) w = (Err err, w1) ->
  handle_job env keyring job deferred w
  = (Ok deferred, w1,
     [EvOpen (Path job) (Err err);
      EvErrorf err "Error reading %s for GPG check"
               [ArgString (Label job)]]).
Proof.
  intros H Ho. unfold handle_job, bind, perform, Errorf, emit, ret.
  rewrite H, Ho. reflexivity.
Qed.

(** The events of handling a job whose file opens and verifies. *)
Lemma handle_job_verified (keyring : option KeyRing)
      (job : DownloadJob) (deferred : list File) (w w1 : W) (f : File) :
  Error job = None ->
  os_Open env (Path job) w = (Ok f, w1) ->
  rpm_GPGCheck env f keyring w1 = None ->
  handle_job env keyring job deferred w
  = (Ok (f :: deferred), w1,
     [EvOpen (Path job) (Ok f); EvGPGCheck f keyring None]).
Proof.
  intros H Ho Hg.
  unfold handle_job, bind, perform, observe, Errorf, emit, ret.
  rewrite H, Ho. simpl. rewrite Hg. reflexivity.
Qed.

(** The events of handling a job whose file opens and fails the
    signature check. *)
Lemma handle_job_rejected (keyring : option KeyRing)
      (job : DownloadJob) (deferred : list File) (w w1 : W) (f : File)
      (e : error) :
  Error job = None ->
  os_Open env (Path job) w = (Ok f, w1) ->
  rpm_GPGCheck env f keyring w1 = Some e ->
  handle_job env keyring job deferred w
  = (Ok (f :: deferred), snd (os_Remove env (Path job) w1),
     [EvOpen (Path job) (Ok f);
      EvGPGCheck f keyring (Some e);
      EvErrorf e "GPG check validation failed for %s"
               [ArgString (Label job)];
      EvRemove (Path job) (fst (os_Remove env (Path job) w1))]
     ++ match fst (os_Remove env (Path job) w1) with
        | Some e' => [EvErrorf e' "Error deleting %v"
                               [ArgString (Label job)]]
        | None => []
        end).
Proof.
  intros H Ho Hg.
  unfold handle_job, bind, perform, observe, Errorf, emit, ret.
  rewrite H, Ho. simpl. rewrite Hg. simpl.
  destruct (fst (os_Remove env (Path job) w1)); reflexivity.
Qed.

(** Handling a job never leaves [Sync], and makes loop calls only. *)
Lemma handle_job_total (keyring : option KeyRing) (job : DownloadJob)
      (deferred : list File) (w : W) :
  exists deferred' w' t,
    handle_job env keyring job deferred w = (Ok deferred', w', t)
    /\ forallb loop_event t = true.
Proof.
  destruct (Error job) as [e|] eqn:H.
  - rewrite (handle_job_download_error keyring job deferred w H).
    do 3 eexists. split; reflexivity.
  - destruct (os_Open env (Path job) w) as [[f|err] w1] eqn:Ho.
    + destruct (rpm_GPGCheck env f keyring w1) as [e|] eqn:Hg.
      * rewrite (handle_job_rejected keyring job deferred w H Ho Hg).
        do 3 eexists. split; [reflexivity|].
        destruct (fst (os_Remove env (Path job) w1)); reflexivity.
      * rewrite (handle_job_verified keyring job deferred w H Ho Hg).
        do 3 eexists. split; reflexivity.
    + rewrite (handle_job_open_error keyring job deferred w H Ho).
      do 3 eexists. split; reflexivity.
Qed.

(** The completion loop ends normally, and every job the channel
    delivers is received and handled inside it. *)
Lemma await_run (keyring : option KeyRing) (complete : list DownloadJob) :
  forall (deferred : list File) (w : W),
  exists deferred' w' t,
    await env keyring complete deferred w = (Ok deferred', w', t)
    /\ forallb loop_event t = true
    /\ forall job, In job complete ->
         exists d wj d' wj' seg pre post,
           t = pre ++ EvReceive job :: seg ++ post
           /\ handle_job env keyring job d (delivered env job wj)
              = (Ok d', wj', seg).
Proof.
  induction complete as [|j rest IH]; intros deferred w; simpl.
  - exists deferred, w, []. repeat split; auto. intros job [].
  - destruct (handle_job_total keyring j deferred (delivered env j w))
      as [d1 [w1 [t1 [H1 Q1]]]].
    destruct (IH d1 w1) as [d2 [w2 [t2 [H2 [Q2 E2]]]]].
    unfold bind, affect. rewrite H1, H2.
    exists d2, w2, (EvReceive j :: t1 ++ t2). split; [reflexivity|].
    split.
    + simpl. rewrite forallb_app, Q1, Q2. reflexivity.
    + intros job [Hj | Hin].
      * subst job. exists deferred, w, d1, w1, t1, [], t2.
        split; [reflexivity | exact H1].
      * destruct (E2 job Hin)
          as [d [wj [d' [wj' [seg [pre [post [Ht Hh]]]]]]]].
        exists d, wj, d', wj', seg, (EvReceive j :: t1 ++ pre), post.
        split; [|exact Hh].
        rewrite Ht. simpl. rewrite <- app_assoc. reflexivity.
Qed.

Lemma run_deferred_run (deferred : list File) :
  forall w : W,
  exists w' t,
    run_deferred env deferred w = (Ok tt, w', t)
    /\ forallb loop_event t = true.
Proof.
  induction deferred as [|f rest IH]; intros w; simpl.
  - exists w, []. auto.
  - destruct (IH (File_Close env f w)) as [w' [t [H Q]]].
    unfold bind, affect. rewrite H.
    exists w', (EvClose f :: t). auto.
Qed.

(** A run whose setup succeeds: the diff, the launch of the download and
    the completion loop follow, and [Sync] returns nil. *)
Lemma Sync_run (c : Repo) (cachedir packagedir : string) (w w1 : W)
      (keyring : option KeyRing) (files : list FileInfo)
      (packages : list PackageEntry) (t1 : list event) :
  setup env c cachedir packagedir w
  = (Ok (keyring, files, packages), w1, t1) ->
  exists t2 t3 w3,
    plan env c packagedir files packages w1
    = (Ok (planned_jobs env c files packagedir w1 packages), w1, t2)
    /\ forallb diff_event t2 = true
    /\ Sync env c cachedir packagedir w
       = (Ok tt, w3,
          t1 ++ t2
             ++ EvDownload (planned_jobs env c files packagedir w1 packages)
             :: t3)
    /\ forallb loop_event t3 = true
    /\ forall job,
         In job (Download env
                   (planned_jobs env c files packagedir w1 packages) w1) ->
         exists d wj d' wj' seg pre post,
           t3 = pre ++ EvReceive job :: seg ++ post
           /\ handle_job env keyring job d (delivered env job wj)
              = (Ok d', wj', seg).
Proof.
  intros Hs.
  destruct (plan_run env c packagedir files packages w1) as [tp [Hp Qp]].
  set (jobs := planned_jobs env c files packagedir w1 packages) in *.
  destruct (await_run keyring (Download env jobs w1) [] w1)
    as [d [w2 [ta [Ha [Qa Ea]]]]].
  destruct (run_deferred_run d w2) as [w3 [tc [Hc Qc]]].
  eexists _, (ta ++ tc), w3. split; [exact Hp|]. split.
  { rewrite forallb_app, Qp. reflexivity. }
  split.
  { unfold Sync, bind at 1. rewrite Hs.
    unfold bind at 1. rewrite Hp.
    unfold run_jobs, bind, observe. rewrite Ha, Hc. simpl.
    rewrite <- !app_assoc. reflexivity. }
  split.
  { rewrite forallb_app, Qa, Qc. reflexivity. }
  intros job Hin.
  destruct (Ea job Hin) as [d0 [wj [d' [wj' [seg [pre [post [Ht Hh]]]]]]]].
  exists d0, wj, d', wj', seg, pre, (post ++ tc). split; [|exact Hh].
  rewrite Ht, <- !app_assoc. simpl. rewrite <- app_assoc. reflexivity.
Qed.

End LoopFacts.

(** ** The diff schedules exactly the entries without a valid local file *)

Section DiffCorrect.

Context {W : Type} (env : Env W).

(** C1. In a run of [Repo.Sync] whose setup succeeds, the jobs handed to
    the download are the jobs of the filtered entries, in order, for which
    the listing holds no file named as the base name of the entry's
    location whose checksum validates against the declared checksum and
    algorithm: an entry is scheduled if and only if it has no such file.
    A file that fails validation (mismatch or any other error) makes its
    entry scheduled, and the diff only validates and logs: it removes
    nothing and leaves the world as it found it.  When every entry has a
    valid local file no job is scheduled. *)
Theorem Sync_schedules_the_invalid
        (c : Repo) (cachedir packagedir : string) (w w1 : W)
        (keyring : option KeyRing) (files : list FileInfo)
        (packages : list PackageEntry) (t1 : list event) :
  setup env c cachedir packagedir w
  = (Ok (keyring, files, packages), w1, t1) ->
  let valid p :=
    exists f, In f files
              /\ FileName f = filepath_Base env (LocationHref p)
              /\ yum_ValidateFileChecksum env
                   (filepath_Join env packagedir
                      (filepath_Base env (LocationHref p)))
                   (Checksum p) (ChecksumType p) w1 = None in
  exists missing t2 t3 w3,
    plan env c packagedir files packages w1
    = (Ok (map (new_job env c packagedir) missing), w1, t2)
    /\ Sync env c cachedir packagedir w
       = (Ok tt, w3,
          t1 ++ t2 ++ EvDownload (map (new_job env c packagedir) missing)
             :: t3)
    /\ missing = filter (fun p => negb (valid_local env files packagedir
                                          w1 p)) packages
    /\ (forall p, In p missing <-> In p packages /\ ~ valid p)
    /\ (forall p e,
          In p packages ->
          yum_ValidateFileChecksum env
            (filepath_Join env packagedir
               (filepath_Base env (LocationHref p)))
            (Checksum p) (ChecksumType p) w1 = Some e ->
          In p missing)
    /\ forallb diff_event t2 = true
    /\ (forall path r, ~ In (EvRemove path r) t2)
    /\ ((forall p, In p packages -> valid p) -> missing = []).
Proof.
  intros Hs valid.
  destruct (Sync_run env c cachedir packagedir w Hs)
    as [t2 [t3 [w3 [Hp [Qp [Hy _]]]]]].
  assert (Hiff : forall p,
             In p (missing_entries env files packagedir w1 packages)
             <-> In p packages /\ ~ valid p).
  { intros p. unfold missing_entries. rewrite filter_In, negb_true_iff.
    rewrite <- not_true_iff_false, valid_local_spec. reflexivity. }
  exists (missing_entries env files packagedir w1 packages), t2, t3, w3.
  split; [exact Hp|]. split; [exact Hy|]. split; [reflexivity|].
  split; [exact Hiff|]. split.
  { intros p e Hin Hv. apply Hiff. split; [exact Hin|].
    intros [f [_ [_ Hn]]]. rewrite Hn in Hv. discriminate. }
  split; [exact Qp|]. split.
  { intros path r Hin. rewrite forallb_forall in Qp.
    apply Qp in Hin. discriminate. }
  intros Hall. unfold missing_entries.
  destruct (filter _ packages) as [|p rest] eqn:Hf; [reflexivity|].
  assert (Hp' : In p (missing_entries env files packagedir w1 packages)).
  { unfold missing_entries. rewrite Hf. left. reflexivity. }
  apply Hiff in Hp'. destruct Hp' as [Hin Hnv].
  exfalso. apply Hnv, Hall, Hin.
Qed.

End DiffCorrect.

(** On the small world: [a-1.0] is mirrored and valid, so exactly [b-2.0]
    and [c-3.0] are scheduled. *)
Lemma Sync_schedules_the_invalid_witness :
  exists t w3,
    Sync (Toy.env Toy.calm) Toy.R1 "cache" "mirror" Toy.world0
    = (Ok tt, w3, t)
    /\ In (EvDownload (map (new_job (Toy.env Toy.calm) Toy.R1 "mirror")
                           [Toy.b; Toy.c])) t.
Proof.
  edestruct (@Sync_schedules_the_invalid _ (Toy.env Toy.calm) Toy.R1
               "cache" "mirror" Toy.world0)
    as [missing [t2 [t3 [w3 [_ [Hy [Hm _]]]]]]].
  - reflexivity.
  - eexists _, w3. split; [exact Hy|].
    apply in_or_app. right. apply in_or_app. right.
    left. rewrite Hm. reflexivity.
Defined.

(** ** Setup failures abort, job failures do not *)

Section SetupFacts.

Context {W : Type} (env : Env W).

Lemma existsb_none {A} (P Q : A -> bool) (l : list A) :
  (forall x, P x = true -> Q x = false) ->
  forallb P l = true -> existsb Q l = false.
Proof.
  intros HPQ. induction l as [|x rest IH]; simpl; [reflexivity|].
  rewrite andb_true_iff. intros [Hx Hr].
  rewrite (HPQ x Hx), (IH Hr). reflexivity.
Qed.

(** The setup fails exactly when one of its calls fails fatally, and
    never launches the download. *)
Lemma setup_cases (c : Repo) (cachedir packagedir : string) (w : W) :
  failed (fst (fst (setup env c cachedir packagedir w)))
  = existsb fatal_call (snd (setup env c cachedir packagedir w))
  /\ existsb is_download (snd (setup env c cachedir packagedir w)) = false.
Proof.
  unfold setup, CacheLocal, try, map_err, bind, observe, perform,
    Dprintf, emit, ret, fail.
  destruct (GPGCheck c);
    [destruct (OpenKeyRing env (GPGKey c) w) as [k|?]; simpl; auto|];
    simpl;
    (destruct (NewCache env cachedir w) as [[ch|?] wa]; simpl; auto);
    (destruct (NewRepoCache env ch c wa) as [[rc|?] wb]; simpl; auto);
    (destruct (Update env rc wb) as [[?|] wc]; simpl; auto);
    (destruct (PrimaryDB_ env rc wc) as [[db|?] wd]; simpl; auto);
    (destruct (os_MkdirAll env packagedir 488 wd) as [[e0|] we]; simpl;
     [destruct (os_IsExist e0) eqn:Hx; simpl; rewrite ?Hx; auto|]);
    (destruct (ioutil_ReadDir env packagedir we) as [fs|?]; simpl;
     rewrite ?Hx; auto);
    (destruct (Packages env db we) as [ps|?]; simpl; rewrite ?Hx; auto).
Qed.

(** A key that cannot be loaded, with GPG checking on, is the first and
    last call of the run. *)
Lemma setup_without_keyring (c : Repo) (cachedir packagedir : string)
      (w : W) (e : error) :
  GPGCheck c = true ->
  OpenKeyRing env (GPGKey c) w = Err e ->
  setup env c cachedir packagedir w
  = (Err e, w, [EvOpenKeyRing (GPGKey c) (Err e)]).
Proof.
  intros Hg Hk. unfold setup, try, bind, observe, fail.
  rewrite Hg, Hk. reflexivity.
Qed.

(** A failed setup is the whole run. *)
Lemma Sync_aborts (c : Repo) (cachedir packagedir : string) (w w1 : W)
      (e : error) (t1 : list event) :
  setup env c cachedir packagedir w = (Err e, w1, t1) ->
  Sync env c cachedir packagedir w = (Err e, w1, t1).
Proof.
  intros Hs. unfold Sync, bind. rewrite Hs. reflexivity.
Qed.

End SetupFacts.

Section SetupFatal.

Context {W : Type} (env : Env W).

(** In a run of [Repo.Sync] whose calls all return, a non-nil error is
    returned exactly when a setup call fails fatally: keyring loading (made
    only with GPG checking enabled), a step of metadata caching, the primary
    database, directory listing, package-list decoding, or directory
    creation with an error that [os.IsExist] does not accept.  The
    download is launched exactly in the other runs; those return nil
    whatever the jobs' outcomes, after every job the channel delivers has
    been received and handled. *)
Lemma Sync_fatal_at_setup_only
        (c : Repo) (cachedir packagedir : string) (w w' : W)
        (r : result unit) (t : list event) :
  Sync env c cachedir packagedir w = (r, w', t) ->
  failed r = existsb fatal_call t
  /\ existsb is_download t = negb (existsb fatal_call t)
  /\ (existsb is_download t = true ->
      r = Ok tt
      /\ exists keyring jobs w1 t1 t3,
          t = t1 ++ EvDownload jobs :: t3
          /\ existsb is_download t1 = false
          /\ forall job,
              In job (Download env jobs w1) ->
              exists d wj d' wj' seg pre post,
                t3 = pre ++ EvReceive job :: seg ++ post
                /\ handle_job env keyring job d (delivered env job wj)
                   = (Ok d', wj', seg)).
Proof.
  intros Hrun.
  destruct (setup_cases env c cachedir packagedir w) as [Hf Hd].
  destruct (setup env c cachedir packagedir w) as [[rs w1] t1] eqn:Hs.
  simpl in Hf, Hd.
  destruct rs as [[[keyring files] packages]|e].
  - destruct (Sync_run env c cachedir packagedir w Hs)
      as [t2 [t3 [w3 [_ [Qp [Hy [Q3 E3]]]]]]].
    rewrite Hy in Hrun. inversion Hrun; subst r w' t; clear Hrun.
    assert (Hfat : existsb fatal_call
                     (t1 ++ t2 ++ EvDownload
                        (planned_jobs env c files packagedir w1 packages)
                        :: t3) = false).
    { rewrite !existsb_app. simpl. rewrite <- Hf. simpl.
      rewrite (existsb_none diff_event fatal_call t2);
        [|intros [] Hx; try discriminate Hx; reflexivity | exact Qp].
      rewrite (existsb_none loop_event fatal_call t3);
        [|intros [] Hx; try discriminate Hx; reflexivity | exact Q3].
      reflexivity. }
    assert (Hdl : existsb is_download
                    (t1 ++ t2 ++ EvDownload
                       (planned_jobs env c files packagedir w1 packages)
                       :: t3) = true).
    { rewrite !existsb_app. simpl. rewrite orb_true_r, orb_true_r.
      reflexivity. }
    rewrite Hfat, Hdl.
    split; [reflexivity|]. split; [reflexivity|].
    intros _. split; [reflexivity|].
    exists keyring, (planned_jobs env c files packagedir w1 packages),
      w1, (t1 ++ t2), t3.
    split; [rewrite <- app_assoc; reflexivity|]. split.
    + rewrite existsb_app, Hd.
      apply (existsb_none diff_event is_download t2);
        [intros [] Hx; try discriminate Hx; reflexivity | exact Qp].
    + exact E3.
  - rewrite (Sync_aborts env c cachedir packagedir w Hs) in Hrun.
    inversion Hrun; subst r w' t; clear Hrun.
    rewrite <- Hf, Hd. simpl.
    split; [reflexivity|]. split; [reflexivity|]. discriminate.
Qed.

End SetupFatal.

(** ** Signature verification in the completion loop *)

Section Verification.

Context {W : Type} (env : Env W).

(** The keyring a successful setup hands on: none when GPG checking is off
    (no key is read), the loaded one when it is on. *)
Lemma setup_keyring (c : Repo) (cachedir packagedir : string) (w w1 : W)
      (keyring : option KeyRing) (files : list FileInfo)
      (packages : list PackageEntry) (t1 : list event) :
  setup env c cachedir packagedir w
  = (Ok (keyring, files, packages), w1, t1) ->
  if GPGCheck c
  then exists k, keyring = Some k
                 /\ OpenKeyRing env (GPGKey c) w = Ok k
                 /\ In (EvOpenKeyRing (GPGKey c) (Ok k)) t1
  else keyring = None.
Proof.
  unfold setup, CacheLocal, try, map_err, bind, observe, perform,
    Dprintf, emit, ret, fail.
  destruct (GPGCheck c);
    [destruct (OpenKeyRing env (GPGKey c) w) as [k|?] eqn:Hk; simpl|];
    simpl; try discriminate;
    (destruct (NewCache env cachedir w) as [[ch|?] wa]; simpl;
     try discriminate);
    (destruct (NewRepoCache env ch c wa) as [[rc|?] wb]; simpl;
     try discriminate);
    (destruct (Update env rc wb) as [[?|] wc]; simpl; try discriminate);
    (destruct (PrimaryDB_ env rc wc) as [[db|?] wd]; simpl;
     try discriminate);
    (destruct (os_MkdirAll env packagedir 488 wd) as [[e0|] we]; simpl;
     [destruct (os_IsExist e0); simpl; try discriminate|]);
    (destruct (ioutil_ReadDir env packagedir we) as [fs|?]; simpl;
     try discriminate);
    (destruct (Packages env db we) as [ps|?]; simpl; try discriminate);
    intros H; inversion H; subst; clear H;
    try reflexivity;
    (exists k; split; [reflexivity|]; split; [reflexivity|];
     left; reflexivity).
Qed.

(** C3. In a run of [Repo.Sync] whose setup succeeds, every job the channel
    delivers without a download error is handled inside the run, and when
    its file opens and the signature check against the keyring fails, the
    handling is: the failure is reported, [os.Remove] is called on the
    job's path and the world is the one that call leaves; an error of the
    removal is reported after, the failure report staying as it is.  The
    run returns nil after that. *)
Theorem Sync_removes_rejected_downloads
        (c : Repo) (cachedir packagedir : string) (w w1 : W)
        (keyring : option KeyRing) (files : list FileInfo)
        (packages : list PackageEntry) (t1 : list event) :
  setup env c cachedir packagedir w
  = (Ok (keyring, files, packages), w1, t1) ->
  exists w3 t,
    Sync env c cachedir packagedir w = (Ok tt, w3, t)
    /\ forall job,
        In job (Download env
                  (planned_jobs env c files packagedir w1 packages) w1) ->
        Error job = None ->
        exists d wj d' wj' seg pre post,
          t = pre ++ EvReceive job :: seg ++ post
          /\ handle_job env keyring job d (delivered env job wj)
             = (Ok d', wj', seg)
          /\ forall f wo e,
              os_Open env (Path job) (delivered env job wj) = (Ok f, wo) ->
              rpm_GPGCheck env f keyring wo = Some e ->
              wj' = snd (os_Remove env (Path job) wo)
              /\ seg
                 = [EvOpen (Path job) (Ok f);
                    EvGPGCheck f keyring (Some e);
                    EvErrorf e "GPG check validation failed for %s"
                             [ArgString (Label job)];
                    EvRemove (Path job)
                             (fst (os_Remove env (Path job) wo))]
                   ++ match fst (os_Remove env (Path job) wo) with
                      | Some e' => [EvErrorf e' "Error deleting %v"
                                             [ArgString (Label job)]]
                      | None => []
                      end.
Proof.
  intros Hs.
  destruct (Sync_run env c cachedir packagedir w Hs)
    as [t2 [t3 [w3 [_ [_ [Hy [_ E3]]]]]]].
  eexists w3, _. split; [exact Hy|].
  intros job Hin Herr.
  destruct (E3 job Hin) as [d [wj [d' [wj' [seg [pre [post [Ht Hh]]]]]]]].
  exists d, wj, d', wj', seg,
    (t1 ++ t2 ++ EvDownload (planned_jobs env c files packagedir w1 packages)
        :: pre), post.
  split.
  { rewrite Ht, <- !app_assoc. reflexivity. }
  split; [exact Hh|].
  intros f wo e Ho Hg.
  rewrite (handle_job_rejected env keyring job d _ Herr Ho Hg) in Hh.
  inversion Hh. split; reflexivity.
Qed.


End Verification.

(** On the small world, with a bad signature on [b-2.0]: the run returns
    nil and [b-2.0] has been removed. *)
Lemma Sync_removes_rejected_downloads_witness :
  (exists w3 t,
      Sync (Toy.env Scenarios.rough) Toy.R1 "cache" "mirror" Toy.world0
      = (Ok tt, w3, t))
  /\ In (EvRemove "mirror/b-2.0.rpm" None)
        (snd (Sync (Toy.env Scenarios.rough) Toy.R1 "cache" "mirror"
                   Toy.world0)).
Proof.
  split.
  - edestruct (@Sync_removes_rejected_downloads _ (Toy.env Scenarios.rough)
                 Toy.R1 "cache" "mirror" Toy.world0)
      as [w3 [t [Hy _]]].
    + reflexivity.
    + exists w3, t. exact Hy.
  - vm_compute. tauto.
Defined.


(** C4, at an input where the code departs from it.  [R1] with GPG checking
    off, [b-2.0] and [c-3.0] missing and downloaded without error: no key is
    read, yet each downloaded file is passed to [rpm.GPGCheck] with the nil
    keyring; the check fails and both files are removed again. *)
Theorem Sync_verifies_with_checking_off :
  let run := Sync (Toy.env Toy.calm) Scenarios.R1_nogpg "cache" "mirror"
                  Toy.world0 in
  GPGCheck Scenarios.R1_nogpg = false
  /\ fst (fst run) = Ok tt
  /\ (forall key r, ~ In (EvOpenKeyRing key r) (snd run))
  /\ In (EvGPGCheck (FileRef 0) None (Some (ErrForeign "no keyring")))
        (snd run)
  /\ In (EvRemove "mirror/b-2.0.rpm" None) (snd run)
  /\ In (EvRemove "mirror/c-3.0.rpm" None) (snd run)
  /\ Toy.disk (snd (fst run)) = [("mirror/a-1.0.rpm", "sha:a-1.0")].
Proof.
  intros run. split; [reflexivity|]. split; [reflexivity|]. split.
  { intros key r H. vm_compute in H.
    repeat (destruct H as [H|H]; [discriminate H|]). exact H. }
  split; [vm_compute; tauto|]. split; [vm_compute; tauto|].
  split; [vm_compute; tauto|]. reflexivity.
Qed.

(** ** Validation of descriptors *)

(** [Repo.Validate] never changes the descriptor. *)
Lemma Validate_leaves_descriptor (c : Repo) : snd (Validate c) = c.
Proof.
  unfold Validate.
  destruct (is_empty (ID c)); [reflexivity|].
  destruct (is_empty (MirrorURL c) && is_empty (BaseURL c)); reflexivity.
Qed.

(** [YumRepoMirror.Validate] sets an empty name to the ID. *)
Lemma Mirror_Validate_defaults_name (c : Mirror.YumRepoMirror) :
  fst (Mirror.Validate c) = None ->
  Mirror.Name (Mirror.YumRepo_ c) = "" ->
  Mirror.Name (Mirror.YumRepo_ (snd (Mirror.Validate c)))
  = Mirror.ID (Mirror.YumRepo_ c).
Proof.
  unfold Mirror.Validate. intros Hv Hn.
  destruct (is_empty (Mirror.ID (Mirror.YumRepo_ c))); [discriminate Hv|].
  destruct (is_empty (Mirror.MirrorListURL (Mirror.YumRepo_ c))
            && is_empty (Mirror.BaseURL (Mirror.YumRepo_ c)));
    [discriminate Hv|].
  rewrite Hn. reflexivity.
Qed.

(** C7, at an input where the code departs from it.  The descriptor [R1]
    has an ID, a base URL and an empty name: [Repo.Validate] returns nil and
    the name is still empty, while [YumRepoMirror.Validate] sets the name of
    the sibling descriptor to the ID. *)
Theorem Repo_Validate_keeps_empty_name :
  Name Toy.R1 = ""
  /\ ID Toy.R1 = "R1"
  /\ fst (Validate Toy.R1) = None
  /\ Name (snd (Validate Toy.R1)) = ""
  /\ fst (Mirror.Validate Scenarios.M1) = None
  /\ Mirror.Name (Mirror.YumRepo_ (snd (Mirror.Validate Scenarios.M1)))
     = "R1".
Proof.
  repeat split.
Qed.

Lemma string_app_assoc (a b c : string) :
  ((a ++ b) ++ c = a ++ (b ++ c))%string.
Proof.
  induction a as [|ch a IH]; simpl; [reflexivity|].
  rewrite IH. reflexivity.
Qed.

Lemma is_empty_spec (s : string) : is_empty s = true <-> s = "".
Proof.
  destruct s; simpl; split; intros H; try reflexivity; discriminate H.
Qed.

(** C6. [Validate] returns a non-nil error if and only if the ID is empty or
    both the base URL and the mirror-list URL are empty; the text of the
    error ends with the Yumfile path and line number of the descriptor; a
    descriptor with an ID and at least one URL gets nil.  This holds for
    [Repo.Validate] and for [YumRepoMirror.Validate]. *)
Theorem Validate_rejects_the_incomplete :
  (forall c : Repo,
      (fst (Validate c) <> None
       <-> ID c = "" \/ (BaseURL c = "" /\ MirrorURL c = ""))
      /\ (forall e,
             fst (Validate c) = Some e ->
             exists prefix,
               error_text e
               = Some (prefix ++ "(in " ++ YumfilePath c ++ ":"
                              ++ Fmt.itoa (YumfileLineNo c) ++ ")")%string)
      /\ (ID c <> "" -> BaseURL c <> "" \/ MirrorURL c <> "" ->
          fst (Validate c) = None))
  /\ (forall c : Mirror.YumRepoMirror,
         let y := Mirror.YumRepo_ c in
         (fst (Mirror.Validate c) <> None
          <-> Mirror.ID y = ""
              \/ (Mirror.BaseURL y = "" /\ Mirror.MirrorListURL y = ""))
         /\ (forall e,
                fst (Mirror.Validate c) = Some e ->
                exists prefix,
                  error_text e
                  = Some (prefix ++ "(in " ++ Mirror.YumfilePath c ++ ":"
                                 ++ Fmt.itoa (Mirror.YumfileLineNo c)
                                 ++ ")")%string)
         /\ (Mirror.ID y <> "" ->
             Mirror.BaseURL y <> "" \/ Mirror.MirrorListURL y <> "" ->
             fst (Mirror.Validate c) = None)).
Proof.
  split.
  - intros c. unfold Validate.
    destruct (is_empty (ID c)) eqn:Hi;
      [|destruct (is_empty (MirrorURL c)) eqn:Hm;
        [destruct (is_empty (BaseURL c)) eqn:Hb|]]; simpl;
      rewrite ?is_empty_spec in *.
    + split; [split; [auto | discriminate]|]. split.
      * intros e He. inversion He; subst e; clear He.
        exists "Upstream repository has no ID specified "%string.
        reflexivity.
      * intros Hne. contradiction.
    + split; [split; [auto | discriminate]|]. split.
      * intros e He. inversion He; subst e; clear He.
        exists ("Upstream repository for '" ++ ID c
                ++ "' has no mirror list or base URL ")%string.
        simpl. rewrite string_app_assoc. reflexivity.
      * intros _ [H|H]; contradiction.
    + assert (Hi' : ID c <> "") by (rewrite <- is_empty_spec, Hi; discriminate).
      assert (Hb' : BaseURL c <> "")
        by (rewrite <- is_empty_spec, Hb; discriminate).
      split; [split; [intros H; now elim H | intros [H|[H _]]; contradiction]|].
      split; [intros e He; discriminate He | reflexivity].
    + assert (Hi' : ID c <> "") by (rewrite <- is_empty_spec, Hi; discriminate).
      assert (Hm' : MirrorURL c <> "")
        by (rewrite <- is_empty_spec, Hm; discriminate).
      split; [split; [intros H; now elim H | intros [H|[_ H]]; contradiction]|].
      split; [intros e He; discriminate He | reflexivity].
  - intros c y. unfold Mirror.Validate. fold y.
    destruct (is_empty (Mirror.ID y)) eqn:Hi;
      [|destruct (is_empty (Mirror.MirrorListURL y)) eqn:Hm;
        [destruct (is_empty (Mirror.BaseURL y)) eqn:Hb|]]; simpl;
      rewrite ?is_empty_spec in *.
    + split; [split; [auto | discriminate]|]. split.
      * intros e He. inversion He; subst e; clear He.
        exists "Upstream repository has no ID specified "%string.
        reflexivity.
      * intros Hne. contradiction.
    + split; [split; [auto | discriminate]|]. split.
      * intros e He. inversion He; subst e; clear He.
        exists ("Upstream repository for '" ++ Mirror.ID y
                ++ "' has no mirror list or base URL ")%string.
        simpl. rewrite string_app_assoc. reflexivity.
      * intros _ [H|H]; contradiction.
    + assert (Hi' : Mirror.ID y <> "")
        by (rewrite <- is_empty_spec, Hi; discriminate).
      assert (Hb' : Mirror.BaseURL y <> "")
        by (rewrite <- is_empty_spec, Hb; discriminate).
      destruct (is_empty (Mirror.Name y)); simpl;
        (split;
         [split; [intros H; now elim H | intros [H|[H _]]; contradiction]|];
         split; [intros e He; discriminate He | reflexivity]).
    + assert (Hi' : Mirror.ID y <> "")
        by (rewrite <- is_empty_spec, Hi; discriminate).
      assert (Hm' : Mirror.MirrorListURL y <> "")
        by (rewrite <- is_empty_spec, Hm; discriminate).
      destruct (is_empty (Mirror.Name y)); simpl;
        (split;
         [split; [intros H; now elim H | intros [H|[_ H]]; contradiction]|];
         split; [intros e He; discriminate He | reflexivity]).
Qed.

(** ** Job construction and the running total *)

Lemma uint64_add (x y : Z) : uint64 (uint64 x + uint64 y) = uint64 (x + y).
Proof.
  unfold uint64. rewrite <- Zplus_mod. reflexivity.
Qed.

(** The running total is the declared sum reduced to 64 bits. *)
Lemma running_total (l : list PackageEntry) (t : Z) :
  fold_left add_size l (uint64 t) = uint64 (t + declared_total l).
Proof.
  revert t. induction l as [|p rest IH]; intros t; simpl.
  - rewrite Z.add_0_r. reflexivity.
  - unfold add_size at 2. rewrite uint64_add, IH.
    unfold declared_total. simpl. f_equal. lia.
Qed.

Lemma Forall2_map_self {A B} (R : A -> B -> Prop) (f : A -> B) (l : list A) :
  (forall x, R x (f x)) -> Forall2 R l (map f l).
Proof.
  intros H. induction l as [|x rest IH]; simpl; constructor; auto.
Qed.

Section Jobs.

Context {W : Type} (env : Env W).

(** C5, as the code has it.  In a run of [Repo.Sync] whose setup succeeds,
    the jobs handed to the download correspond one to one, in order, to the
    missing entries: the job of an entry has as path the package directory
    joined with the base name of the entry's location, as URL the base URL
    joined with the location, the entry's checksum and algorithm, and as
    size the declared size converted to unsigned 64 bits (the declared size
    itself when that is at least 0 and below 2^64).  The total reported
    with the schedule is the sum of the declared sizes modulo 2^64, hence
    the sum itself whenever that is at least 0 and below 2^64. *)
Theorem Sync_builds_one_job_per_missing_entry
        (c : Repo) (cachedir packagedir : string) (w w1 : W)
        (keyring : option KeyRing) (files : list FileInfo)
        (packages : list PackageEntry) (t1 : list event) :
  setup env c cachedir packagedir w
  = (Ok (keyring, files, packages), w1, t1) ->
  let missing := missing_entries env files packagedir w1 packages in
  exists jobs total w3 t2 t3,
    Sync env c cachedir packagedir w
    = (Ok tt, w3, t1 ++ t2 ++ EvDownload jobs :: t3)
    /\ Forall2
         (fun p job =>
            Label job = String_ p
            /\ Path job = filepath_Join env packagedir
                            (filepath_Base env (LocationHref p))
            /\ URL job = urljoin env (BaseURL c) (LocationHref p)
            /\ Size job = PackageSize p mod 2 ^ 64
            /\ (0 <= PackageSize p < 2 ^ 64 -> Size job = PackageSize p)
            /\ JobChecksum job = Checksum p
            /\ JobChecksumType job = ChecksumType p
            /\ Error job = None)
         missing jobs
    /\ In (EvDprintf ("Scheduled %d packages for download (%s)" ++ nl)
                     [ArgInt (len missing);
                      ArgString (bytefmt_ByteSize env total)]) t2
    /\ total = declared_total missing mod 2 ^ 64
    /\ (0 <= declared_total missing < 2 ^ 64 ->
        total = declared_total missing).
Proof.
  intros Hs missing.
  destruct (plan_run env c packagedir files packages w1) as [tp [Hp _]].
  destruct (Sync_run env c cachedir packagedir w Hs)
    as [t2 [t3 [w3 [Hp' [_ [Hy _]]]]]].
  rewrite Hp in Hp'. inversion Hp' as [Ht2]. clear Hp'.
  rewrite <- Ht2 in Hy. fold missing in Hy.
  assert (Htot : fold_left add_size missing 0
                 = declared_total missing mod 2 ^ 64).
  { change 0 with (uint64 0) at 1. rewrite running_total. reflexivity. }
  eexists _, (fold_left add_size missing 0), w3, _, t3.
  split; [exact Hy|]. split.
  { unfold planned_jobs. apply Forall2_map_self. intros p. simpl.
    repeat split. intros Hr. unfold uint64. apply Z.mod_small. exact Hr. }
  split.
  { apply in_or_app. right. left. reflexivity. }
  split; [exact Htot|].
  intros Hr. rewrite Htot. apply Z.mod_small. exact Hr.
Qed.

End Jobs.

(** On the small world: the jobs of [b-2.0] and [c-3.0], 500 bytes in
    all. *)
Lemma Sync_builds_one_job_per_missing_entry_witness :
  exists jobs w3 t2 t3,
    Sync (Toy.env Toy.calm) Toy.R1 "cache" "mirror" Toy.world0
    = (Ok tt, w3,
       snd (setup (Toy.env Toy.calm) Toy.R1 "cache" "mirror" Toy.world0)
           ++ t2 ++ EvDownload jobs :: t3)
    /\ In (EvDprintf ("Scheduled %d packages for download (%s)" ++ nl)
                     [ArgInt 2; ArgString "500B"]) t2.
Proof.
  edestruct (@Sync_builds_one_job_per_missing_entry _ (Toy.env Toy.calm)
               Toy.R1 "cache" "mirror" Toy.world0)
    as [jobs [total [w3 [t2 [t3 [Hy [_ [Hin [Htot _]]]]]]]]].
  - reflexivity.
  - exists jobs, w3, t2, t3. split; [exact Hy|].
    rewrite Htot in Hin. exact Hin.
Defined.

Section MirrorList.

Context {W : Type} (env : Env W).

(** C9. For a descriptor that passes [Validate] with an empty base URL and
    a mirror-list URL, every job handed to the download in a run of
    [Repo.Sync] has as URL the empty base URL joined with the location of
    its entry; the job of an entry is the same whatever the mirror-list
    URL is. *)
Theorem Sync_job_urls_ignore_the_mirror_list
        (c : Repo) (cachedir packagedir : string) (w w1 : W)
        (keyring : option KeyRing) (files : list FileInfo)
        (packages : list PackageEntry) (t1 : list event) :
  fst (Validate c) = None ->
  BaseURL c = "" ->
  MirrorURL c <> "" ->
  setup env c cachedir packagedir w
  = (Ok (keyring, files, packages), w1, t1) ->
  exists jobs w3 t2 t3,
    Sync env c cachedir packagedir w
    = (Ok tt, w3, t1 ++ t2 ++ EvDownload jobs :: t3)
    /\ Forall2
         (fun p job => URL job = urljoin env "" (LocationHref p))
         (missing_entries env files packagedir w1 packages) jobs
    /\ (forall job, In job jobs ->
          exists p, In p packages
                    /\ URL job = urljoin env "" (LocationHref p))
    /\ (forall mirror p,
          new_job env (Scenarios.with_URLs "" mirror c) packagedir p
          = new_job env c packagedir p).
Proof.
  intros _ Hb _ Hs.
  destruct (Sync_run env c cachedir packagedir w Hs)
    as [t2 [t3 [w3 [_ [_ [Hy _]]]]]].
  exists (planned_jobs env c files packagedir w1 packages), w3, t2, t3.
  split; [exact Hy|]. split.
  { unfold planned_jobs. apply Forall2_map_self. intros p. simpl.
    rewrite Hb. reflexivity. }
  split.
  { intros job Hin. unfold planned_jobs in Hin. rewrite in_map_iff in Hin.
    destruct Hin as [p [Hj Hp]]. exists p. split.
    - unfold missing_entries in Hp. rewrite filter_In in Hp. tauto.
    - subst job. simpl. rewrite Hb. reflexivity. }
  intros mirror p. unfold new_job. simpl. rewrite Hb. reflexivity.
Qed.

End MirrorList.

(** On the small world, for [R1] known by a mirror list only: the URL of
    the job of [b-2.0] starts at the empty base URL. *)
Lemma Sync_job_urls_ignore_the_mirror_list_witness :
  exists jobs w3 t,
    Sync (Toy.env Toy.calm) Scenarios.R1_mirrorlist "cache" "mirror"
         Toy.world0
    = (Ok tt, w3, t)
    /\ In (EvDownload jobs) t
    /\ map URL jobs = ["/Packages/b-2.0.rpm"; "/Packages/c-3.0.rpm"].
Proof.
  edestruct (@Sync_job_urls_ignore_the_mirror_list _ (Toy.env Toy.calm)
               Scenarios.R1_mirrorlist "cache" "mirror" Toy.world0)
    as [jobs [w3 [t2 [t3 [Hy [Hf _]]]]]].
  - reflexivity.
  - reflexivity.
  - discriminate.
  - reflexivity.
  - eexists jobs, w3, _. split; [exact Hy|]. split.
    + apply in_or_app. right. apply in_or_app. right. left. reflexivity.
    + clear Hy. vm_compute in Hf.
      repeat match goal with
             | H : Forall2 _ (_ :: _) _ |- _ => inversion H; subst; clear H
             | H : Forall2 _ [] _ |- _ => inversion H; subst; clear H
             end.
      simpl. repeat (f_equal; try assumption).
Defined.

(** * Further properties of Repo.Sync *)

Section RunFacts.

Context {W : Type} (env : Env W).

Lemma flat_map_none {A B} (P : A -> bool) (f : A -> list B) (l : list A) :
  (forall x, P x = true -> f x = []) ->
  forallb P l = true -> flat_map f l = [].
Proof.
  intros H. induction l as [|x rest IH]; simpl; [reflexivity|].
  rewrite andb_true_iff. intros [Hx Hr].
  rewrite (H x Hx), (IH Hr). reflexivity.
Qed.

Lemma filter_none {A} (P Q : A -> bool) (l : list A) :
  (forall x, P x = true -> Q x = false) ->
  forallb P l = true -> filter Q l = [].
Proof.
  intros H. induction l as [|x rest IH]; simpl; [reflexivity|].
  rewrite andb_true_iff. intros [Hx Hr].
  rewrite (H x Hx), (IH Hr). reflexivity.
Qed.

(** The setup makes setup calls only. *)
Lemma setup_calls (c : Repo) (cachedir packagedir : string) (w : W) :
  forallb setup_event (snd (setup env c cachedir packagedir w)) = true.
Proof.
  unfold setup, CacheLocal, try, map_err, bind, observe, perform,
    Dprintf, emit, ret, fail.
  destruct (GPGCheck c);
    [destruct (OpenKeyRing env (GPGKey c) w) as [k|?]; simpl; auto|];
    simpl;
    (destruct (NewCache env cachedir w) as [[ch|?] wa]; simpl; auto);
    (destruct (NewRepoCache env ch c wa) as [[rc|?] wb]; simpl; auto);
    (destruct (Update env rc wb) as [[?|] wc]; simpl; auto);
    (destruct (PrimaryDB_ env rc wc) as [[db|?] wd]; simpl; auto);
    (destruct (os_MkdirAll env packagedir 488 wd) as [[e0|] we]; simpl;
     [destruct (os_IsExist e0) eqn:Hx; simpl; auto|]);
    (destruct (ioutil_ReadDir env packagedir we) as [fs|?]; simpl; auto);
    (destruct (Packages env db we) as [ps|?]; simpl; auto).
Qed.

(** A failed setup ends with the call that failed, and returns the error
    that belongs to it. *)
Lemma setup_error (c : Repo) (cachedir packagedir : string) (w w1 : W)
      (e : error) (t1 : list event) :
  setup env c cachedir packagedir w = (Err e, w1, t1) ->
  returned_error c packagedir (last t1 (EvDprintf "" [])) = Some e
  /\ existsb fatal_call (removelast t1) = false.
Proof.
  unfold setup, CacheLocal, try, map_err, bind, observe, perform,
    Dprintf, emit, ret, fail.
  destruct (GPGCheck c);
    [destruct (OpenKeyRing env (GPGKey c) w) as [k|?]; simpl|];
    simpl;
    try (intros H; inversion H; subst; simpl; auto; fail);
    (destruct (NewCache env cachedir w) as [[ch|?] wa]; simpl;
     try (intros H; inversion H; subst; simpl; auto; fail));
    (destruct (NewRepoCache env ch c wa) as [[rc|?] wb]; simpl;
     try (intros H; inversion H; subst; simpl; auto; fail));
    (destruct (Update env rc wb) as [[?|] wc]; simpl;
     try (intros H; inversion H; subst; simpl; auto; fail));
    (destruct (PrimaryDB_ env rc wc) as [[db|?] wd]; simpl;
     try (intros H; inversion H; subst; simpl; auto; fail));
    (destruct (os_MkdirAll env packagedir 488 wd) as [[e0|] we]; simpl;
     [destruct (os_IsExist e0) eqn:Hx; simpl;
      try (intros H; inversion H; subst; simpl; rewrite ?Hx; auto; fail)|]);
    (destruct (ioutil_ReadDir env packagedir we) as [fs|?]; simpl;
     try (intros H; inversion H; subst; simpl; rewrite ?Hx; auto; fail));
    (destruct (Packages env db we) as [ps|?]; simpl;
     try (intros H; inversion H; subst; simpl; rewrite ?Hx; auto; fail));
    intros H; discriminate H.
Qed.

(** X1. A run of [Repo.Sync] that returns an error stopped at its last
    call: that call is a setup call that failed, no call before it failed
    fatally, and the error returned is fixed by it: the error of
    [OpenKeyRing] or [PrimaryDB] as it is; the error of a caching step
    behind the repository name; the error of [os.MkdirAll] behind the
    package directory; the error of [Packages] behind a fixed text; and for
    [ioutil.ReadDir] a fixed text without the cause. *)
Theorem Sync_error_is_of_the_last_call
        (c : Repo) (cachedir packagedir : string) (w w' : W)
        (e : error) (t : list event) :
  Sync env c cachedir packagedir w = (Err e, w', t) ->
  returned_error c packagedir (last t (EvDprintf "" [])) = Some e
  /\ fatal_call (last t (EvDprintf "" [])) = true
  /\ existsb fatal_call (removelast t) = false
  /\ forallb setup_event t = true.
Proof.
  intros Hrun.
  pose proof (setup_calls c cachedir packagedir w) as Hc.
  destruct (setup env c cachedir packagedir w) as [[rs w1] t1] eqn:Hs.
  destruct rs as [[[keyring files] packages]|e1].
  - destruct (Sync_run env c cachedir packagedir w Hs)
      as [t2 [t3 [w3 [_ [_ [Hy _]]]]]].
    rewrite Hy in Hrun. discriminate Hrun.
  - rewrite (Sync_aborts env c cachedir packagedir w Hs) in Hrun.
    inversion Hrun; subst e1 w1 t1; clear Hrun.
    destruct (setup_error c cachedir packagedir w Hs) as [He Hn].
    split; [exact He|]. split; [|split; [exact Hn | exact Hc]].
    destruct (last t (EvDprintf "" [])) as
      [? [|]|? [|]|? ? [|]|? [|]|? [|]|? ? [e0|]|? [|]|? [|]| | | | | | | | | ];
      simpl in He |- *; try discriminate He; try reflexivity.
    destruct (os_IsExist e0); [discriminate He | reflexivity].
Qed.

End RunFacts.

(** On the small world, with a key file that cannot be read: the error of
    [OpenKeyRing] comes back as it is. *)
Lemma Sync_error_is_of_the_last_call_witness :
  fst (fst (Sync (Toy.env Scenarios.no_key) Toy.R1 "cache" "mirror"
                 Toy.world0))
  = Err (ErrForeign "open RPM-GPG-KEY: no such file")
  /\ returned_error Toy.R1 "mirror"
       (last (snd (Sync (Toy.env Scenarios.no_key) Toy.R1 "cache" "mirror"
                        Toy.world0)) (EvDprintf "" []))
     = Some (ErrForeign "open RPM-GPG-KEY: no such file").
Proof.
  split; [reflexivity|].
  eapply (@Sync_error_is_of_the_last_call _ (Toy.env Scenarios.no_key)
            Toy.R1 "cache" "mirror" Toy.world0).
  reflexivity.
Defined.

Section LoopResources.

Context {W : Type} (env : Env W).

(** Handling a job defers the close of the file it opened, if any, and
    closes nothing. *)
Lemma handle_job_defers (keyring : option KeyRing) (job : DownloadJob)
      (d d' : list File) (w w' : W) (seg : list event) :
  handle_job env keyring job d w = (Ok d', w', seg) ->
  d' = rev (opened_files seg) ++ d /\ closed_files seg = [].
Proof.
  unfold handle_job, bind, perform, observe, Errorf, emit, ret.
  destruct (Error job) as [e|].
  - intros H. inversion H. split; reflexivity.
  - destruct (os_Open env (Path job) w) as [[f|err] w1]; simpl.
    + destruct (rpm_GPGCheck env f keyring w1) as [e|]; simpl.
      * destruct (os_Remove env (Path job) w1) as [[e'|] w2]; simpl;
          intros H; inversion H; split; reflexivity.
      * intros H. inversion H. split; reflexivity.
    + intros H. inversion H. split; reflexivity.
Qed.

(** The completion loop closes nothing: it hands on the files it opened,
    the latest first. *)
Lemma await_defers (keyring : option KeyRing) (complete : list DownloadJob) :
  forall (d d' : list File) (w w' : W) (t : list event),
    await env keyring complete d w = (Ok d', w', t) ->
    d' = rev (opened_files t) ++ d /\ closed_files t = [].
Proof.
  induction complete as [|j rest IH]; intros d d' w w' t; simpl.
  - intros H. inversion H. split; reflexivity.
  - unfold bind, affect.
    destruct (handle_job env keyring j d (delivered env j w))
      as [[[d1|e1] w1] t1] eqn:H1; [|intros H; discriminate H].
    destruct (await env keyring rest d1 w1) as [[r2 w2] t2] eqn:H2.
    intros H. inversion H; subst r2 w2 t; clear H.
    destruct (handle_job_defers keyring j d _ H1) as [Hd1 Hc1].
    destruct (IH d1 d' w1 w' t2 H2) as [Hd2 Hc2].
    unfold opened_files, closed_files in *. simpl.
    rewrite !flat_map_app, rev_app_distr, Hc1, Hc2, Hd2, Hd1.
    rewrite <- app_assoc. split; reflexivity.
Qed.

(** The deferred closes are the only calls made on the way out. *)
Lemma run_deferred_closes (d : list File) :
  forall w : W,
    snd (run_deferred env d w) = map EvClose d
    /\ fst (fst (run_deferred env d w)) = Ok tt.
Proof.
  induction d as [|f rest IH]; intros w; simpl; [split; reflexivity|].
  unfold bind, affect.
  destruct (IH (File_Close env f w)) as [Ht Hr].
  destruct (run_deferred env rest (File_Close env f w)) as [[r w'] t].
  simpl in Ht, Hr. subst r t. split; reflexivity.
Qed.

(** X2. In a run of [Repo.Sync] whose setup succeeds, no file is closed
    while jobs are handled: the run ends with the closes of all the files it
    opened, each closed once, the last opened first. *)
Theorem Sync_closes_files_at_the_end
        (c : Repo) (cachedir packagedir : string) (w w1 : W)
        (keyring : option KeyRing) (files : list FileInfo)
        (packages : list PackageEntry) (t1 : list event) :
  setup env c cachedir packagedir w
  = (Ok (keyring, files, packages), w1, t1) ->
  exists w3 body,
    Sync env c cachedir packagedir w
    = (Ok tt, w3, body ++ map EvClose (rev (opened_files body)))
    /\ closed_files body = [].
Proof.
  intros Hs.
  pose proof (setup_calls env c cachedir packagedir w) as Hc.
  rewrite Hs in Hc. simpl in Hc.
  destruct (Sync_run env c cachedir packagedir w Hs)
    as [t2 [t3 [w3' [Hp [Q2 _]]]]].
  clear t3 w3'.
  set (jobs := planned_jobs env c files packagedir w1 packages) in *.
  destruct (await_run env keyring (Download env jobs w1) [] w1)
    as [d [w2 [ta [Ha _]]]].
  destruct (await_defers keyring _ _ _ Ha) as [Hd Hca].
  rewrite app_nil_r in Hd.
  destruct (run_deferred_closes d w2) as [Htc Hrc].
  destruct (run_deferred env d w2) as [[rc w3] tc] eqn:Hrd.
  simpl in Htc, Hrc. subst rc tc.
  assert (Ho1 : opened_files t1 = []).
  { apply (flat_map_none setup_event); [|exact Hc].
    intros [] Hx; try discriminate Hx; reflexivity. }
  assert (Ho2 : opened_files t2 = []).
  { apply (flat_map_none diff_event); [|exact Q2].
    intros [] Hx; try discriminate Hx; reflexivity. }
  assert (Hc1 : closed_files t1 = []).
  { apply (flat_map_none setup_event); [|exact Hc].
    intros [] Hx; try discriminate Hx; reflexivity. }
  assert (Hc2 : closed_files t2 = []).
  { apply (flat_map_none diff_event); [|exact Q2].
    intros [] Hx; try discriminate Hx; reflexivity. }
  assert (Hob : opened_files (t1 ++ t2 ++ EvDownload jobs :: ta)
                = opened_files ta).
  { unfold opened_files in *. rewrite !flat_map_app, Ho1, Ho2.
    reflexivity. }
  assert (Hcb : closed_files (t1 ++ t2 ++ EvDownload jobs :: ta) = []).
  { unfold closed_files in *. rewrite !flat_map_app, Hc1, Hc2.
    simpl. exact Hca. }
  exists w3, (t1 ++ t2 ++ EvDownload jobs :: ta).
  split; [|exact Hcb].
  rewrite Hob, <- Hd.
  unfold Sync, bind at 1. rewrite Hs.
  unfold bind at 1. rewrite Hp.
  unfold run_jobs, bind, observe. rewrite Ha, Hrd. simpl.
  rewrite <- !app_assoc. reflexivity.
Qed.

End LoopResources.

Section JobOutcomes.

Context {W : Type} (env : Env W).

(** X3. In a run of [Repo.Sync] whose setup succeeds, a job delivered with
    a download error is reported and nothing else: its path is neither
    opened, nor checked, nor removed, and handling it leaves the world as
    the arrival of the job left it. *)
Theorem Sync_only_reports_failed_downloads
        (c : Repo) (cachedir packagedir : string) (w w1 : W)
        (keyring : option KeyRing) (files : list FileInfo)
        (packages : list PackageEntry) (t1 : list event) :
  setup env c cachedir packagedir w
  = (Ok (keyring, files, packages), w1, t1) ->
  exists w3 t,
    Sync env c cachedir packagedir w = (Ok tt, w3, t)
    /\ forall job e,
        In job (Download env
                  (planned_jobs env c files packagedir w1 packages) w1) ->
        Error job = Some e ->
        exists d wj pre post,
          t = pre ++ EvReceive job
                  :: EvErrorf e "Error downloading %s"
                              [ArgString (Label job)]
                  :: post
          /\ handle_job env keyring job d (delivered env job wj)
             = (Ok d, delivered env job wj,
                [EvErrorf e "Error downloading %s" [ArgString (Label job)]]).
Proof.
  intros Hs.
  destruct (Sync_run env c cachedir packagedir w Hs)
    as [t2 [t3 [w3 [_ [_ [Hy [_ E3]]]]]]].
  eexists w3, _. split; [exact Hy|].
  intros job e Hin Herr.
  destruct (E3 job Hin) as [d [wj [d' [wj' [seg [pre [post [Ht Hh]]]]]]]].
  rewrite (handle_job_download_error env keyring job d _ Herr) in Hh.
  inversion Hh; subst d' wj' seg; clear Hh.
  exists d, wj,
    (t1 ++ t2 ++ EvDownload (planned_jobs env c files packagedir w1 packages)
        :: pre), post.
  split.
  - rewrite Ht, <- !app_assoc. reflexivity.
  - apply handle_job_download_error. exact Herr.
Qed.

(** X4. In a run of [Repo.Sync] whose setup succeeds, a job delivered
    without error whose file opens and passes the signature check is kept:
    handling it is the open and the check, with no report and no removal,
    and the world is the one [os.Open] left. *)
Theorem Sync_keeps_verified_downloads
        (c : Repo) (cachedir packagedir : string) (w w1 : W)
        (keyring : option KeyRing) (files : list FileInfo)
        (packages : list PackageEntry) (t1 : list event) :
  setup env c cachedir packagedir w
  = (Ok (keyring, files, packages), w1, t1) ->
  exists w3 t,
    Sync env c cachedir packagedir w = (Ok tt, w3, t)
    /\ forall job,
        In job (Download env
                  (planned_jobs env c files packagedir w1 packages) w1) ->
        Error job = None ->
        exists d wj d' wj' seg pre post,
          t = pre ++ EvReceive job :: seg ++ post
          /\ handle_job env keyring job d (delivered env job wj)
             = (Ok d', wj', seg)
          /\ forall f wo,
              os_Open env (Path job) (delivered env job wj) = (Ok f, wo) ->
              rpm_GPGCheck env f keyring wo = None ->
              seg = [EvOpen (Path job) (Ok f); EvGPGCheck f keyring None]
              /\ wj' = wo
              /\ d' = f :: d.
Proof.
  intros Hs.
  destruct (Sync_run env c cachedir packagedir w Hs)
    as [t2 [t3 [w3 [_ [_ [Hy [_ E3]]]]]]].
  eexists w3, _. split; [exact Hy|].
  intros job Hin Herr.
  destruct (E3 job Hin) as [d [wj [d' [wj' [seg [pre [post [Ht Hh]]]]]]]].
  exists d, wj, d', wj', seg,
    (t1 ++ t2 ++ EvDownload (planned_jobs env c files packagedir w1 packages)
        :: pre), post.
  split.
  { rewrite Ht, <- !app_assoc. reflexivity. }
  split; [exact Hh|].
  intros f wo Ho Hg.
  rewrite (handle_job_verified env keyring job d _ Herr Ho Hg) in Hh.
  inversion Hh. repeat split.
Qed.

End JobOutcomes.

Section Validations.

Context {W : Type} (env : Env W).

Lemma search_local_validations (files : list FileInfo) (name path : string)
      (p : PackageEntry) (w : W) :
  filter is_validation (snd (search_local env files name path p w))
  = if has_name files name
    then [EvValidateFileChecksum path (Checksum p) (ChecksumType p)
            (yum_ValidateFileChecksum env path (Checksum p)
               (ChecksumType p) w)]
    else [].
Proof.
  induction files as [|f rest IH]; simpl; [reflexivity|].
  destruct (String.eqb (FileName f) name); simpl; [|exact IH].
  unfold bind, observe, Errorf, emit, ret.
  destruct (yum_ValidateFileChecksum env path _ _ w) as [e|];
    [destruct e|]; reflexivity.
Qed.

Lemma find_missing_validations (files : list FileInfo) (packagedir : string)
      (packages : list PackageEntry) :
  forall (missing : list PackageEntry) (totalsize : Z) (w : W),
    filter is_validation
      (snd (find_missing env files packagedir packages missing totalsize w))
    = map (validation_of env packagedir w)
        (filter (fun p => has_name files (filepath_Base env (LocationHref p)))
                packages).
Proof.
  induction packages as [|p rest IH]; intros missing totalsize w; simpl;
    [reflexivity|].
  pose proof (search_local_validations files
                (filepath_Base env (LocationHref p))
                (filepath_Join env packagedir
                   (filepath_Base env (LocationHref p))) p w) as Hv.
  destruct (search_local_run env files (filepath_Base env (LocationHref p))
              (filepath_Join env packagedir
                 (filepath_Base env (LocationHref p))) p w)
    as [ts [H1 _]].
  rewrite H1 in Hv. simpl in Hv.
  unfold bind at 1. rewrite H1.
  match goal with
  | |- context [if negb ?b then _ else _] => destruct b
  end; simpl.
  - specialize (IH missing totalsize w).
    destruct (find_missing env files packagedir rest missing totalsize w)
      as [[r w'] t']. simpl in IH |- *.
    rewrite filter_app, Hv, IH.
    destruct (has_name files (filepath_Base env (LocationHref p)));
      reflexivity.
  - specialize (IH (missing ++ [p])
                   (uint64 (totalsize + uint64 (PackageSize p))) w).
    destruct (find_missing env files packagedir rest (missing ++ [p])
                (uint64 (totalsize + uint64 (PackageSize p))) w)
      as [[r w'] t']. simpl in IH |- *.
    rewrite filter_app, Hv, IH.
    destruct (has_name files (filepath_Base env (LocationHref p)));
      reflexivity.
Qed.

(** X5. In a run of [Repo.Sync] whose setup succeeds, checksums are
    validated during the diff only: before the download is launched there
    is one validation for each filtered entry whose base name is in the
    listing, in the order of the entries, and none for the other entries;
    after the launch there is none, so a downloaded file is never
    validated. *)
Theorem Sync_validates_listed_entries_once
        (c : Repo) (cachedir packagedir : string) (w w1 : W)
        (keyring : option KeyRing) (files : list FileInfo)
        (packages : list PackageEntry) (t1 : list event) :
  setup env c cachedir packagedir w
  = (Ok (keyring, files, packages), w1, t1) ->
  exists w3 pre jobs post,
    Sync env c cachedir packagedir w
    = (Ok tt, w3, pre ++ EvDownload jobs :: post)
    /\ filter is_validation pre
       = map (validation_of env packagedir w1)
           (filter (fun p => has_name files
                               (filepath_Base env (LocationHref p)))
                   packages)
    /\ filter is_validation post = [].
Proof.
  intros Hs.
  pose proof (setup_calls env c cachedir packagedir w) as Hc.
  rewrite Hs in Hc. simpl in Hc.
  destruct (Sync_run env c cachedir packagedir w Hs)
    as [t2 [t3 [w3 [Hp [_ [Hy [Q3 _]]]]]]].
  exists w3, (t1 ++ t2),
    (planned_jobs env c files packagedir w1 packages), t3.
  split; [rewrite <- app_assoc; exact Hy|]. split.
  - rewrite filter_app.
    rewrite (filter_none setup_event is_validation t1);
      [|intros [] Hx; try discriminate Hx; reflexivity | exact Hc].
    simpl.
    pose proof (find_missing_validations files packagedir packages [] 0 w1)
      as Hv.
    unfold plan, bind, Dprintf, emit, ret in Hp.
    destruct (find_missing env files packagedir packages [] 0 w1)
      as [[[mt|e] wm] tm]; simpl in Hv; [|discriminate Hp].
    inversion Hp; subst. simpl.
    rewrite filter_app. simpl. rewrite app_nil_r. exact Hv.
  - apply (filter_none loop_event); [|exact Q3].
    intros [] Hx; try discriminate Hx; reflexivity.
Qed.

End Validations.

(** On the small world, with [c-3.0] unreadable: the one file opened is
    closed by the last call of the run. *)
Lemma Sync_closes_files_at_the_end_witness :
  exists w3 body,
    Sync (Toy.env Scenarios.rough) Toy.R1 "cache" "mirror" Toy.world0
    = (Ok tt, w3, body ++ map EvClose (rev (opened_files body)))
    /\ closed_files body = [].
Proof.
  eapply (@Sync_closes_files_at_the_end _ (Toy.env Scenarios.rough) Toy.R1
            "cache" "mirror" Toy.world0).
  reflexivity.
Defined.

(** On the small world, with [b-2.0] unreachable: the run returns nil,
    reports the failure and opens [c-3.0] only. *)
Lemma Sync_only_reports_failed_downloads_witness :
  (exists w3 t,
      Sync (Toy.env Flaky.flaky) Toy.R1 "cache" "mirror" Toy.world0
      = (Ok tt, w3, t))
  /\ opened_files (snd (Sync (Toy.env Flaky.flaky) Toy.R1 "cache" "mirror"
                             Toy.world0))
     = [FileRef 0]
  /\ Toy.lookup "mirror/b-2.0.rpm"
       (Toy.disk (snd (fst (Sync (Toy.env Flaky.flaky) Toy.R1 "cache"
                                 "mirror" Toy.world0))))
     = None.
Proof.
  split.
  - edestruct (@Sync_only_reports_failed_downloads _ (Toy.env Flaky.flaky)
                 Toy.R1 "cache" "mirror" Toy.world0)
      as [w3 [t [Hy _]]].
    + reflexivity.
    + exists w3, t. exact Hy.
  - split; reflexivity.
Defined.

(** On the small world: [b-2.0] and [c-3.0] are fetched, verified and
    kept. *)
Lemma Sync_keeps_verified_downloads_witness :
  (exists w3 t,
      Sync (Toy.env Toy.calm) Toy.R1 "cache" "mirror" Toy.world0
      = (Ok tt, w3, t))
  /\ existsb is_remove
       (snd (Sync (Toy.env Toy.calm) Toy.R1 "cache" "mirror" Toy.world0))
     = false.
Proof.
  split.
  - edestruct (@Sync_keeps_verified_downloads _ (Toy.env Toy.calm)
                 Toy.R1 "cache" "mirror" Toy.world0)
      as [w3 [t [Hy _]]].
    + reflexivity.
    + exists w3, t. exact Hy.
  - reflexivity.
Defined.

(** On the small world: the one validation of the run is that of the
    mirrored [a-1.0]. *)
Lemma Sync_validates_listed_entries_once_witness :
  exists w3 pre jobs post,
    Sync (Toy.env Toy.calm) Toy.R1 "cache" "mirror" Toy.world0
    = (Ok tt, w3, pre ++ EvDownload jobs :: post)
    /\ filter is_validation pre
       = [EvValidateFileChecksum "mirror/a-1.0.rpm" "sha:a-1.0" "sha256"
                                 None]
    /\ filter is_validation post = [].
Proof.
  edestruct (@Sync_validates_listed_entries_once _ (Toy.env Toy.calm)
               Toy.R1 "cache" "mirror" Toy.world0)
    as [w3 [pre [jobs [post [Hy [Hv Hn]]]]]].
  - reflexivity.
  - exists w3, pre, jobs, post. split; [exact Hy|]. split; [|exact Hn].
    rewrite Hv. reflexivity.
Defined.

(** * Further properties of the validators *)

(** X6. For a [Repo] and a [YumRepoMirror] with the same ID, URLs and
    Yumfile location, [Repo.Validate] and [YumRepoMirror.Validate] return
    the same: nil for both, or errors with the same text. *)
Theorem validators_agree (c : Repo) (m : Mirror.YumRepoMirror) :
  same_identity c m ->
  fst (Validate c) = fst (Mirror.Validate m).
Proof.
  intros [Hi [Hb [Hm [Hp Hl]]]].
  unfold Validate, Mirror.Validate. rewrite Hi, Hb, Hm, Hp, Hl.
  destruct (is_empty (ID c)); [reflexivity|].
  destruct (is_empty (MirrorURL c) && is_empty (BaseURL c)); [reflexivity|].
  destruct (is_empty (Mirror.Name (Mirror.YumRepo_ m))); reflexivity.
Qed.

Lemma validators_agree_witness :
  fst (Validate Toy.R1) = fst (Mirror.Validate Scenarios.M1).
Proof.
  apply validators_agree. repeat split.
Defined.

(** X7. [YumRepoMirror.Validate] settles the name: a second validation
    returns the same and changes nothing; a rejected descriptor and a
    descriptor with a name are left as they are; an accepted descriptor
    has a name afterwards; and the name is the only field ever changed. *)
Theorem Mirror_Validate_settles_the_name (m : Mirror.YumRepoMirror) :
  let m' := snd (Mirror.Validate m) in
  Mirror.Validate m' = (fst (Mirror.Validate m), m')
  /\ (fst (Mirror.Validate m) <> None -> m' = m)
  /\ (Mirror.Name (Mirror.YumRepo_ m) <> "" -> m' = m)
  /\ (fst (Mirror.Validate m) = None ->
      Mirror.Name (Mirror.YumRepo_ m') <> "")
  /\ m' = Mirror.set_Name m (Mirror.Name (Mirror.YumRepo_ m')).
Proof.
  destruct m as [[id name base mirror] cp ep isrc lp no dr gc ar yp yl].
  unfold Mirror.Validate, Mirror.set_Name. simpl.
  destruct id as [|ch id]; simpl.
  - repeat split; intros; congruence.
  - destruct (is_empty mirror && is_empty base) eqn:Hu; simpl.
    + rewrite Hu. repeat split; intros; congruence.
    + destruct name as [|cn name]; simpl; rewrite Hu; simpl;
        repeat split; intros; congruence.
Qed.

(** * Properties of the reposync front end *)

Section FrontFacts.

Context {W : Type} (host : Reposync.Host W).

Lemma last_snoc {A} (l : list A) (x d : A) : last (l ++ [x]) d = x.
Proof.
  induction l as [|y rest IH]; simpl; [reflexivity|].
  destruct (rest ++ [x]) eqn:E; [|exact IH].
  destruct rest; discriminate E.
Qed.

Lemma string_app_nil_r (s : string) : (s ++ "")%string = s.
Proof.
  induction s as [|ch s IH]; simpl; [reflexivity|].
  rewrite IH. reflexivity.
Qed.

(** X9. The flags of reposync follow the descriptor, and nothing else
    does: each of --newest-only, --source, --delete and --gpgcheck is among
    the arguments exactly when its option is set, whatever the ID, the
    architecture and the local path are. *)
Theorem Sync_args_flags (c : Mirror.YumRepoMirror) :
  existsb (String.eqb "--newest-only") (Reposync.Sync_args c)
  = Mirror.NewOnly c
  /\ existsb (String.eqb "--source") (Reposync.Sync_args c)
     = Mirror.IncludeSources c
  /\ existsb (String.eqb "--delete") (Reposync.Sync_args c)
     = Mirror.DeleteRemoved c
  /\ existsb (String.eqb "--gpgcheck") (Reposync.Sync_args c)
     = Mirror.GPGCheck c.
Proof.
  unfold Reposync.Sync_args, Reposync.when.
  destruct (Mirror.NewOnly c), (Mirror.IncludeSources c),
    (Mirror.DeleteRemoved c), (Mirror.GPGCheck c),
    (is_empty (Mirror.Architecture c)), (is_empty (Mirror.LocalPath c));
    repeat split.
Qed.

(** X10. reposync downloads into the directory createrepo indexes: the
    last argument of reposync is --download_path= followed by the last
    argument of createrepo, which is the local path, or ./ID when the local
    path is empty. *)
Theorem Sync_and_Update_use_one_directory (c : Mirror.YumRepoMirror) :
  let dir := if is_empty (Mirror.LocalPath c)
             then ("./" ++ Mirror.ID (Mirror.YumRepo_ c))%string
             else Mirror.LocalPath c in
  last (Reposync.Update_args host c) "" = dir
  /\ last (Reposync.Sync_args c) "" = ("--download_path=" ++ dir)%string.
Proof.
  intros dir. unfold Reposync.Update_args, Reposync.Sync_args.
  rewrite !app_assoc, !last_snoc. unfold dir.
  destruct (is_empty (Mirror.LocalPath c)); simpl;
    rewrite string_app_nil_r; split; reflexivity.
Qed.

End FrontFacts.

Section RepoFile.

Context {W : Type} (host : Reposync.Host W).

(** X11. The repo file of a descriptor that passed
    [YumRepoMirror.Validate] opens with the section of the repo, always
    has a name line, which carries the ID when no name was given, and
    names exactly one source of packages: the mirror list when there is
    one, the base URL otherwise, never both. *)
Theorem repo_file_of_a_validated_descriptor
        (c : Mirror.YumRepoMirror) (o : Reposync.YumRepoSettings) :
  fst (Mirror.Validate c) = None ->
  let y := Mirror.YumRepo_ c in
  let texts := Reposync.repo_file_texts host (snd (Mirror.Validate c)) o in
  nth 0 texts "" = ("[tmp-y10k-" ++ Mirror.ID y ++ "]" ++ nl)%string
  /\ nth 1 texts ""
     = ("name=" ++ (if is_empty (Mirror.Name y)
                    then Mirror.ID y else Mirror.Name y) ++ nl)%string
  /\ filter source_line texts
     = [if is_empty (Mirror.MirrorListURL y)
        then ("baseurl=" ++ Mirror.BaseURL y ++ nl)%string
        else ("mirrorlist=" ++ Mirror.MirrorListURL y ++ nl)%string].
Proof.
  destruct c as [[id name base mirror] cp ep isrc lp no dr gc ar yp yl].
  unfold Mirror.Validate. simpl.
  destruct id as [|ch id]; simpl; [discriminate|].
  destruct (is_empty mirror && is_empty base) eqn:Hu; simpl;
    [discriminate|].
  intros _.
  unfold Reposync.repo_file_texts, Reposync.when, Reposync.repoName,
    source_line, Reposync.starts_with.
  destruct name as [|cn name]; simpl;
    (destruct mirror as [|cm mirror]; simpl;
     [destruct base as [|cb base]; simpl; [discriminate Hu|]|]);
    destruct (is_empty (Reposync.GPGKeyPath o)),
      (0 <? Reposync.Timeout o), (0 <? Reposync.Retries o); simpl;
    rewrite ?string_app_nil_r, ?string_app_assoc; repeat split.
Qed.

(** X12. One name ties the front end together: the section written to the
    repo file, the repo id given to reposync and the name of the repo file
    are all built on [repoName], the ID behind tmp-y10k-. *)
Theorem repo_name_is_used_throughout
        (c : Mirror.YumRepoMirror) (o : Reposync.YumRepoSettings) :
  Reposync.repoName c = ("tmp-y10k-" ++ Mirror.ID (Mirror.YumRepo_ c))%string
  /\ nth 0 (Reposync.repo_file_texts host c o) ""
     = ("[" ++ Reposync.repoName c ++ "]" ++ nl)%string
  /\ nth 0 (Reposync.Sync_args c) ""
     = ("--repoid=" ++ Reposync.repoName c)%string
  /\ Reposync.repoFilePath c
     = ("/etc/yum.repos.d/" ++ Reposync.repoName c ++ ".repo")%string.
Proof.
  unfold Reposync.repoName, Reposync.repoFilePath,
    Reposync.repo_file_texts, Reposync.Sync_args. simpl.
  rewrite ?string_app_nil_r, ?string_app_assoc. repeat split.
Qed.

End RepoFile.

(** The repo file of the sibling of [R1]: named after the ID, with the base
    URL as its source. *)
Lemma repo_file_of_a_validated_descriptor_witness :
  let texts :=
    Reposync.repo_file_texts (Reposync.plain true None)
      (snd (Mirror.Validate Scenarios.M1)) Reposync.settings in
  nth 1 texts "" = ("name=R1" ++ nl)%string
  /\ filter source_line texts = [("baseurl=http://upstream/r1" ++ nl)%string].
Proof.
  intros texts.
  destruct (@repo_file_of_a_validated_descriptor _ (Reposync.plain true None)
              Scenarios.M1 Reposync.settings eq_refl)
    as [_ [Hn Hs]].
  split; [exact Hn | exact Hs].
Defined.

(** * Properties of the scanner of QueryAll *)

Lemma Split_length (s : string) : List.length (Reposync.Split s) = S (spaces s).
Proof.
  induction s as [|ch rest IH]; simpl; [reflexivity|].
  destruct (Ascii.eqb ch " "%char); simpl; [rewrite IH; reflexivity|].
  destruct (Reposync.Split rest) as [|h t]; simpl in *; [discriminate IH|].
  exact IH.
Qed.

Lemma Split_spaceless (s : string) :
  Reposync.spaceless s = true -> Reposync.Split s = [s].
Proof.
  unfold Reposync.spaceless.
  induction s as [|ch rest IH]; simpl; [reflexivity|].
  rewrite andb_true_iff, negb_true_iff. intros [Hc Hr].
  rewrite Hc, (IH Hr). reflexivity.
Qed.

Lemma Split_field (s rest : string) :
  Reposync.spaceless s = true ->
  Reposync.Split (s ++ " " ++ rest) = s :: Reposync.Split rest.
Proof.
  unfold Reposync.spaceless.
  induction s as [|ch s IH]; simpl; [reflexivity|].
  rewrite andb_true_iff, negb_true_iff. intros [Hc Hr].
  rewrite Hc. simpl in IH. rewrite (IH Hr). reflexivity.
Qed.

Lemma digits_spaceless (d : Decimal.uint) :
  Reposync.spaceless (NilEmpty.string_of_uint d) = true.
Proof.
  unfold Reposync.spaceless.
  induction d; simpl; auto.
Qed.

Lemma itoa_spaceless (n : Z) : Reposync.spaceless (Fmt.itoa n) = true.
Proof.
  unfold Fmt.itoa, NilZero.string_of_int, NilZero.string_of_uint.
  destruct (Z.to_int n) as [d|d]; destruct d;
    try reflexivity; try apply digits_spaceless;
    unfold Reposync.spaceless; simpl;
    apply (digits_spaceless d).
Qed.

Lemma digits_value_grows (d : Decimal.uint) :
  forall n, 0 <= n -> n <= Reposync.digits_value d n.
Proof.
  induction d; intros n Hn; cbn [Reposync.digits_value]; try lia;
    match goal with
    | |- _ <= Reposync.digits_value _ ?m =>
        assert (0 <= m) as Hm by lia; specialize (IHd m Hm); lia
    end.
Qed.

(** [ParseUint] on the digits of a number that fits 64 bits. *)
Lemma ParseUint_digits (d : Decimal.uint) :
  forall n,
    0 <= n -> Reposync.digits_value d n < 2 ^ 64 ->
    Reposync.ParseUint_from (NilEmpty.string_of_uint d) n
    = (Reposync.digits_value d n, Reposync.NoError).
Proof.
  induction d; intros n Hn Hv;
    cbn [Reposync.digits_value NilEmpty.string_of_uint
         Reposync.ParseUint_from] in Hv |- *;
    try reflexivity;
    match type of Hv with
    | Reposync.digits_value _ (10 * n + ?k) < _ =>
        assert (0 <= 10 * n + k) as Hm by lia;
        pose proof (digits_value_grows d Hm) as Hg;
        change (Reposync.digit _) with (Some k);
        cbv iota beta;
        destruct (Z.leb_spec (2 ^ 64) (10 * n + k)); [lia|];
        apply IHd; assumption
    end.
Qed.

Lemma digits_value_acc (d : Decimal.uint) :
  forall acc, Reposync.digits_value d (Z.pos acc) = Z.pos (Pos.of_uint_acc d acc).
Proof.
  induction d; intros acc;
    cbn [Reposync.digits_value Pos.of_uint_acc]; try reflexivity;
    rewrite <- IHd; f_equal; lia.
Qed.

Lemma digits_value_of_uint (d : Decimal.uint) :
  Reposync.digits_value d 0 = Z.of_uint d.
Proof.
  unfold Z.of_uint.
  induction d; cbn [Reposync.digits_value Pos.of_uint Z.of_N];
    try reflexivity; try exact IHd;
    match goal with
    | |- Reposync.digits_value _ ?m = _ =>
        change m with (Z.pos (Z.to_pos m)); apply digits_value_acc
    end.
Qed.

(** [Atoi] on the digits of a number below 2^63. *)
Lemma Atoi_digits (d : Decimal.uint) :
  d <> Decimal.Nil ->
  Z.of_uint d < 2 ^ 63 ->
  Reposync.Atoi (NilEmpty.string_of_uint d) = (Z.of_uint d, true).
Proof.
  intros Hd Hv.
  assert (Hp : Reposync.ParseUint_from (NilEmpty.string_of_uint d) 0
               = (Z.of_uint d, Reposync.NoError)).
  { rewrite <- digits_value_of_uint. apply ParseUint_digits; [lia|].
    rewrite digits_value_of_uint. lia. }
  unfold Reposync.Atoi.
  destruct d; [congruence|..];
    cbn [NilEmpty.string_of_uint fst snd] in *; rewrite Hp;
    cbv iota beta;
    match goal with
    | |- context [Z.leb ?a ?b] =>
        destruct (Z.leb_spec a b); [lia | reflexivity]
    end.
Qed.

(** [Atoi] on the digits of a number up to 2^63 behind a minus sign. *)
Lemma Atoi_minus_digits (d : Decimal.uint) :
  d <> Decimal.Nil ->
  Z.of_uint d <= 2 ^ 63 ->
  Reposync.Atoi (String "-"%char (NilEmpty.string_of_uint d))
  = (- Z.of_uint d, true).
Proof.
  intros Hd Hv.
  assert (Hp : Reposync.ParseUint_from (NilEmpty.string_of_uint d) 0
               = (Z.of_uint d, Reposync.NoError)).
  { rewrite <- digits_value_of_uint. apply ParseUint_digits; [lia|].
    rewrite digits_value_of_uint. lia. }
  unfold Reposync.Atoi.
  destruct d; [congruence|..];
    cbn [NilEmpty.string_of_uint fst snd] in *; rewrite Hp;
    cbv iota beta;
    match goal with
    | |- context [Z.ltb ?a ?b] =>
        destruct (Z.ltb_spec a b); [lia | reflexivity]
    end.
Qed.

(** [Atoi] reads back what %d prints, for every 64-bit integer. *)
Lemma string_of_digits (d : Decimal.uint) :
  d <> Decimal.Nil ->
  NilZero.string_of_uint d = NilEmpty.string_of_uint d.
Proof.
  intros Hd. destruct d; [congruence|..]; reflexivity.
Qed.

Lemma Atoi_itoa (n : Z) :
  - 2 ^ 63 <= n < 2 ^ 63 -> Reposync.Atoi (Fmt.itoa n) = (n, true).
Proof.
  intros Hn. destruct n as [|p|p].
  - reflexivity.
  - change (Fmt.itoa (Z.pos p))
      with (NilZero.string_of_uint (Pos.to_uint p)).
    pose proof (DecimalPos.Unsigned.to_uint_nonnil p) as Hd.
    assert (Hv : Z.of_uint (Pos.to_uint p) = Z.pos p).
    { unfold Z.of_uint. rewrite DecimalPos.Unsigned.of_to. reflexivity. }
    rewrite (string_of_digits Hd), Atoi_digits, Hv;
      [reflexivity | exact Hd | rewrite Hv; lia].
  - change (Fmt.itoa (Z.neg p))
      with (String "-"%char (NilZero.string_of_uint (Pos.to_uint p))).
    pose proof (DecimalPos.Unsigned.to_uint_nonnil p) as Hd.
    assert (Hv : Z.of_uint (Pos.to_uint p) = Z.pos p).
    { unfold Z.of_uint. rewrite DecimalPos.Unsigned.of_to. reflexivity. }
    rewrite (string_of_digits Hd), Atoi_minus_digits, Hv;
      [reflexivity | exact Hd | rewrite Hv; lia].
Qed.

(** X13. The scanner of [QueryAll] reads back a line of repoquery output:
    for a name, a version and a release without spaces and two times within
    64 bits, the line printed in the query format scans to the record of
    these five values, with no debug line. *)
Theorem scan_line_reads_a_query_line
        (name version release : string) (build file : Z) :
  Reposync.spaceless name = true ->
  Reposync.spaceless version = true ->
  Reposync.spaceless release = true ->
  - 2 ^ 63 <= build < 2 ^ 63 ->
  - 2 ^ 63 <= file < 2 ^ 63 ->
  Reposync.scan_line (Reposync.query_line name version release build file)
  = (Some {| Reposync.RpmName := name;
             Reposync.Version := version;
             Reposync.Release := release;
             Reposync.BuildTime := build;
             Reposync.FileTime := file |}, []).
Proof.
  intros Hn Hv Hr Hb Hf.
  unfold Reposync.scan_line, Reposync.query_line.
  rewrite (@Split_field _ _ Hn), (@Split_field _ _ Hv),
    (@Split_field _ _ Hr), (@Split_field _ _ (itoa_spaceless build)),
    (@Split_spaceless _ (itoa_spaceless file)).
  cbn [nth_error nth].
  rewrite (Atoi_itoa Hb), (Atoi_itoa Hf). reflexivity.
Qed.

Lemma scan_line_reads_a_query_line_witness :
  Reposync.scan_line "bash 4.2.46 34.el7 1585239753 -1"
  = (Some {| Reposync.RpmName := "bash";
             Reposync.Version := "4.2.46";
             Reposync.Release := "34.el7";
             Reposync.BuildTime := 1585239753;
             Reposync.FileTime := -1 |}, []).
Proof.
  apply (@scan_line_reads_a_query_line "bash" "4.2.46" "34.el7"
           1585239753 (-1));
    try reflexivity; lia.
Defined.

(** X14. Whether the scanner of [QueryAll] gets through a line depends on
    the number of its spaces only: a line with fewer than four spaces
    stops the scan with an index out of range, and every other line gives a
    record, whatever stands in the time fields. *)
Theorem scan_line_panics_on_short_lines (text : string) :
  fst (Reposync.scan_line text) = None <-> (spaces text < 4)%nat.
Proof.
  unfold Reposync.scan_line.
  pose proof (Split_length text) as Hl.
  destruct (nth_error (Reposync.Split text) 3) as [f3|] eqn:H3.
  - destruct (nth_error (Reposync.Split text) 4) as [f4|] eqn:H4; simpl.
    + assert (4 < List.length (Reposync.Split text))%nat
        by (apply nth_error_Some; congruence).
      split; [discriminate | lia].
    + apply nth_error_None in H4.
      assert (3 < List.length (Reposync.Split text))%nat
        by (apply nth_error_Some; congruence).
      split; [lia | reflexivity].
  - apply nth_error_None in H3. simpl. split; [lia | reflexivity].
Qed.


(** * What Repo.Sync removes *)

Section Removals.

Context {W : Type} (env : Env W).

Lemma handle_job_removals (keyring : option KeyRing) (job : DownloadJob)
      (d d' : list File) (w w' : W) (seg : list event)
      (path : string) (r : option error) :
  handle_job env keyring job d w = (Ok d', w', seg) ->
  In (EvRemove path r) seg ->
  Error job = None /\ path = Path job
  /\ exists f e, In (EvGPGCheck f keyring (Some e)) seg.
Proof.
  unfold handle_job, bind, perform, observe, Errorf, emit, ret.
  destruct (Error job) as [e|].
  - intros H Hin. inversion H; subst. simpl in Hin.
    destruct Hin as [Hin|[]]. discriminate Hin.
  - destruct (os_Open env (Path job) w) as [[f|err] w1]; simpl.
    + destruct (rpm_GPGCheck env f keyring w1) as [e|]; simpl.
      * intros H Hin. split; [reflexivity|].
        destruct (os_Remove env (Path job) w1) as [[e'|] w2];
          simpl in H; inversion H; subst; simpl in Hin;
          repeat (destruct Hin as [Hin|Hin];
                  [try discriminate Hin|]); try contradiction;
          inversion Hin; subst;
          (split; [reflexivity|]; exists f, e; right; left; reflexivity).
      * intros H Hin. inversion H; subst. simpl in Hin.
        repeat (destruct Hin as [Hin|Hin]; [discriminate Hin|]).
        contradiction.
    + intros H Hin. inversion H; subst. simpl in Hin.
      repeat (destruct Hin as [Hin|Hin]; [discriminate Hin|]).
      contradiction.
Qed.

Lemma await_removals (keyring : option KeyRing)
      (complete : list DownloadJob) (path : string) (r : option error) :
  forall (d d' : list File) (w w' : W) (t : list event),
    await env keyring complete d w = (Ok d', w', t) ->
    In (EvRemove path r) t ->
    exists job f e,
      In job complete /\ Error job = None /\ Path job = path
      /\ In (EvGPGCheck f keyring (Some e)) t.
Proof.
  induction complete as [|j rest IH]; intros d d' w w' t; simpl.
  - intros H Hin. inversion H; subst. contradiction.
  - unfold bind, affect.
    destruct (handle_job env keyring j d (delivered env j w))
      as [[[d1|e1] w1] t1] eqn:H1; [|intros H; discriminate H].
    destruct (await env keyring rest d1 w1) as [[r2 w2] t2] eqn:H2.
    intros H Hin. inversion H; subst r2 w2 t; clear H.
    simpl in Hin. destruct Hin as [Hin|Hin]; [discriminate Hin|].
    apply in_app_or in Hin. destruct Hin as [Hin|Hin].
    + destruct (handle_job_removals keyring j d _ path r H1 Hin)
        as [He [Hp [f [e Hg]]]].
      exists j, f, e. repeat split; auto.
      right. apply in_or_app. left. exact Hg.
    + destruct (IH d1 d' w1 w' t2 H2 Hin)
        as [job [f [e [Hj [He [Hp Hg]]]]]].
      exists job, f, e. repeat split; auto.
      right. apply in_or_app. right. exact Hg.
Qed.

(** X16. [Repo.Sync] removes only what it was handed as downloaded: every
    call of [os.Remove] in a run is on the path of a job the channel
    delivered without a download error, after a signature check that
    failed.  No other file of the package directory is ever removed,
    whatever the descriptor asks for. *)
Theorem Sync_removes_rejected_downloads_only
        (c : Repo) (cachedir packagedir : string) (w w1 : W)
        (keyring : option KeyRing) (files : list FileInfo)
        (packages : list PackageEntry) (t1 : list event) :
  setup env c cachedir packagedir w
  = (Ok (keyring, files, packages), w1, t1) ->
  exists w3 t,
    Sync env c cachedir packagedir w = (Ok tt, w3, t)
    /\ forall path r,
        In (EvRemove path r) t ->
        exists job f e,
          In job (Download env
                    (planned_jobs env c files packagedir w1 packages) w1)
          /\ Error job = None
          /\ Path job = path
          /\ In (EvGPGCheck f keyring (Some e)) t.
Proof.
  intros Hs.
  pose proof (setup_calls env c cachedir packagedir w) as Hc.
  rewrite Hs in Hc. simpl in Hc.
  destruct (Sync_run env c cachedir packagedir w Hs)
    as [t2 [t3' [w3' [Hp [Q2 _]]]]].
  clear t3' w3'.
  set (jobs := planned_jobs env c files packagedir w1 packages) in *.
  destruct (await_run env keyring (Download env jobs w1) [] w1)
    as [d [w2 [ta [Ha _]]]].
  destruct (run_deferred_closes env d w2) as [Htc Hrc].
  destruct (run_deferred env d w2) as [[rc w3] tc] eqn:Hrd.
  simpl in Htc, Hrc. subst rc tc.
  exists w3, (t1 ++ t2 ++ EvDownload jobs :: ta ++ map EvClose d).
  split.
  - unfold Sync, bind at 1. rewrite Hs.
    unfold bind at 1. rewrite Hp.
    unfold run_jobs, bind, observe. rewrite Ha, Hrd. simpl.
    reflexivity.
  - intros path r Hin.
    apply in_app_or in Hin. destruct Hin as [Hin|Hin].
    { rewrite forallb_forall in Hc. apply Hc in Hin. discriminate Hin. }
    apply in_app_or in Hin. destruct Hin as [Hin|Hin].
    { rewrite forallb_forall in Q2. apply Q2 in Hin. discriminate Hin. }
    simpl in Hin. destruct Hin as [Hin|Hin]; [discriminate Hin|].
    apply in_app_or in Hin. destruct Hin as [Hin|Hin].
    + destruct (await_removals keyring _ path r _ _ Ha Hin)
        as [job [f [e [Hj [He [Hpath Hg]]]]]].
      exists job, f, e. repeat split; auto.
      apply in_or_app. right. apply in_or_app. right. right.
      apply in_or_app. left. exact Hg.
    + apply in_map_iff in Hin. destruct Hin as [f [Hf _]]. discriminate Hf.
Qed.

End Removals.

(** On the small world, with a bad signature on [b-2.0]: the one removal
    of the run is that of [b-2.0]. *)
Lemma Sync_removes_rejected_downloads_only_witness :
  (exists w3 t,
      Sync (Toy.env Scenarios.rough) Toy.R1 "cache" "mirror" Toy.world0
      = (Ok tt, w3, t))
  /\ filter is_remove
       (snd (Sync (Toy.env Scenarios.rough) Toy.R1 "cache" "mirror"
                  Toy.world0))
     = [EvRemove "mirror/b-2.0.rpm" None].
Proof.
  split.
  - edestruct (@Sync_removes_rejected_downloads_only _
                 (Toy.env Scenarios.rough) Toy.R1 "cache" "mirror"
                 Toy.world0)
      as [w3 [t [Hy _]]].
    + reflexivity.
    + exists w3, t. exact Hy.
  - reflexivity.
Defined.

(** * The keyring of the signature checks *)

Section OneKeyring.

Context {W : Type} (env : Env W).

Lemma handle_job_keyring (keyring : option KeyRing) (job : DownloadJob)
      (d : list File) (w : W) (f : File) (kr : option KeyRing)
      (r : option error) :
  In (EvGPGCheck f kr r) (snd (handle_job env keyring job d w)) ->
  kr = keyring.
Proof.
  unfold handle_job, bind, perform, observe, Errorf, emit, ret.
  destruct (Error job) as [e|]; simpl.
  - intros [H|[]]. discriminate H.
  - destruct (os_Open env (Path job) w) as [[f0|err] w1]; simpl.
    + destruct (rpm_GPGCheck env f0 keyring w1) as [e|]; simpl.
      * destruct (os_Remove env (Path job) w1) as [[e'|] w2]; simpl;
          intros H;
          repeat (destruct H as [H|H]; [try discriminate H|]);
          try contradiction; inversion H; reflexivity.
      * intros H.
        repeat (destruct H as [H|H]; [try discriminate H|]);
          try contradiction; inversion H; reflexivity.
    + intros H.
      repeat (destruct H as [H|H]; [discriminate H|]). contradiction.
Qed.

Lemma await_keyring (keyring : option KeyRing) (complete : list DownloadJob)
      (f : File) (kr : option KeyRing) (r : option error) :
  forall (d : list File) (w : W),
    In (EvGPGCheck f kr r) (snd (await env keyring complete d w)) ->
    kr = keyring.
Proof.
  induction complete as [|j rest IH]; intros d w; simpl; [intros []|].
  unfold bind, affect.
  pose proof (@handle_job_keyring keyring j d (delivered env j w) f kr r)
    as Hh.
  destruct (handle_job env keyring j d (delivered env j w))
    as [[[d1|e1] w1] t1]; simpl in Hh |- *.
  - specialize (IH d1 w1).
    destruct (await env keyring rest d1 w1) as [[r2 w2] t2].
    simpl in IH |- *. intros [H|H]; [discriminate H|].
    apply in_app_or in H. destruct H as [H|H]; auto.
  - intros [H|H]; [discriminate H | auto].
Qed.

(** X17. Every signature check of a run of [Repo.Sync] is made against
    the keyring the setup handed on; with GPG checking on, that is the
    keyring [OpenKeyRing] returned for the descriptor's key at the start of
    the run. *)
Theorem Sync_checks_against_the_setup_keyring
        (c : Repo) (cachedir packagedir : string) (w w1 : W)
        (keyring : option KeyRing) (files : list FileInfo)
        (packages : list PackageEntry) (t1 : list event) :
  setup env c cachedir packagedir w
  = (Ok (keyring, files, packages), w1, t1) ->
  exists w3 t,
    Sync env c cachedir packagedir w = (Ok tt, w3, t)
    /\ (forall f kr r, In (EvGPGCheck f kr r) t -> kr = keyring)
    /\ (GPGCheck c = true ->
        exists k, keyring = Some k
                  /\ OpenKeyRing env (GPGKey c) w = Ok k).
Proof.
  intros Hs.
  pose proof (setup_calls env c cachedir packagedir w) as Hc.
  rewrite Hs in Hc. simpl in Hc.
  destruct (Sync_run env c cachedir packagedir w Hs)
    as [t2 [t3' [w3' [Hp [Q2 _]]]]].
  clear t3' w3'.
  set (jobs := planned_jobs env c files packagedir w1 packages) in *.
  pose proof (fun f kr r =>
                @await_keyring keyring (Download env jobs w1) f kr r [] w1)
    as Hk.
  destruct (await_run env keyring (Download env jobs w1) [] w1)
    as [d [w2 [ta [Ha _]]]].
  rewrite Ha in Hk. simpl in Hk.
  destruct (run_deferred_closes env d w2) as [Htc Hrc].
  destruct (run_deferred env d w2) as [[rc w3] tc] eqn:Hrd.
  simpl in Htc, Hrc. subst rc tc.
  exists w3, (t1 ++ t2 ++ EvDownload jobs :: ta ++ map EvClose d).
  split.
  { unfold Sync, bind at 1. rewrite Hs.
    unfold bind at 1. rewrite Hp.
    unfold run_jobs, bind, observe. rewrite Ha, Hrd. simpl.
    reflexivity. }
  split.
  - intros f kr r Hin.
    apply in_app_or in Hin. destruct Hin as [Hin|Hin].
    { rewrite forallb_forall in Hc. apply Hc in Hin. discriminate Hin. }
    apply in_app_or in Hin. destruct Hin as [Hin|Hin].
    { rewrite forallb_forall in Q2. apply Q2 in Hin. discriminate Hin. }
    simpl in Hin. destruct Hin as [Hin|Hin]; [discriminate Hin|].
    apply in_app_or in Hin. destruct Hin as [Hin|Hin].
    + apply (Hk f kr r Hin).
    + apply in_map_iff in Hin. destruct Hin as [f0 [Hf _]]. discriminate Hf.
  - intros Hg.
    pose proof (setup_keyring env c cachedir packagedir w Hs) as Hkr.
    rewrite Hg in Hkr. destruct Hkr as [k [Hk1 [Hk2 _]]].
    exists k. split; assumption.
Qed.

End OneKeyring.

(** On the small world: both checks of the run use the loaded keyring. *)
Lemma Sync_checks_against_the_setup_keyring_witness :
  (exists w3 t,
      Sync (Toy.env Toy.calm) Toy.R1 "cache" "mirror" Toy.world0
      = (Ok tt, w3, t))
  /\ filter is_gpgcheck
       (snd (Sync (Toy.env Toy.calm) Toy.R1 "cache" "mirror" Toy.world0))
     = [EvGPGCheck (FileRef 0) (Some (KeyRingRef 1)) None;
        EvGPGCheck (FileRef 1) (Some (KeyRingRef 1)) None].
Proof.
  split.
  - edestruct (@Sync_checks_against_the_setup_keyring _ (Toy.env Toy.calm)
                 Toy.R1 "cache" "mirror" Toy.world0)
      as [w3 [t [Hy _]]].
    + reflexivity.
    + exists w3, t. exact Hy.
  - reflexivity.
Defined.

(** * Runs in which a signature check panics *)

Section PanicFacts.

Context {W : Type} (env : Env W) (faults : Faults W).





(** With a keyring loaded no check panics: the loop is the one whose
    calls all return. *)
Lemma await_or_panic_with_keyring (k : KeyRing)
      (complete : list DownloadJob) :
  forall (d : list File) (w : W),
    await_or_panic env faults (Some k) complete d w
    = match await env (Some k) complete d w with
      | (Ok d', w', t) => (None, d', w', t)
      | (Err _, w', t) => (None, d, w', t)
      end.
Proof.
  induction complete as [|j rest IH]; intros d w; simpl; [reflexivity|].
  assert (Hjp : job_panics env faults (Some k) j (delivered env j w) = None).
  { unfold job_panics, check_panics.
    destruct (Error j); [reflexivity|].
    destruct (os_Open env (Path j) (delivered env j w)) as [[f|e] w0];
      reflexivity. }
  rewrite Hjp. unfold bind, affect.
  destruct (handle_job_total env (Some k) j d (delivered env j w))
    as [d1 [w1 [t1 [H1 _]]]].
  rewrite H1, IH.
  destruct (await_run env (Some k) rest d1 w1) as [d2 [w2 [t2 [H2 _]]]].
  rewrite H2. reflexivity.
Qed.

(** With GPG checking on, a run ends as the run whose calls all return:
    it returns, with the same result, world and calls. *)
Lemma Sync_or_panic_with_checking_on
      (c : Repo) (cachedir packagedir : string) (w : W) :
  GPGCheck c = true ->
  Sync_or_panic env faults c cachedir packagedir w
  = (Returns (fst (fst (Sync env c cachedir packagedir w))),
     snd (fst (Sync env c cachedir packagedir w)),
     snd (Sync env c cachedir packagedir w)).
Proof.
  intros Hg. unfold Sync_or_panic.
  destruct (setup env c cachedir packagedir w) as [[rs w1] t1] eqn:Hs.
  destruct rs as [[[keyring files] packages]|e].
  - pose proof (setup_keyring env c cachedir packagedir w Hs) as Hk.
    rewrite Hg in Hk. destruct Hk as [k [Hk _]]. subst keyring.
    destruct (Sync_run env c cachedir packagedir w Hs)
      as [t2 [t3' [w3' [Hp _]]]].
    clear t3' w3'. rewrite Hp.
    set (jobs := planned_jobs env c files packagedir w1 packages) in *.
    rewrite await_or_panic_with_keyring.
    destruct (await_run env (Some k) (Download env jobs w1) [] w1)
      as [d [w2 [ta [Ha _]]]].
    rewrite Ha.
    destruct (run_deferred_run env d w2) as [w3 [tc [Hc _]]].
    rewrite Hc.
    assert (Hy : Sync env c cachedir packagedir w
                 = (Ok tt, w3, t1 ++ t2 ++ EvDownload jobs :: ta ++ tc)).
    { unfold Sync, bind at 1. rewrite Hs.
      unfold bind at 1. rewrite Hp.
      unfold run_jobs, bind, observe. rewrite Ha, Hc. simpl.
      reflexivity. }
    rewrite Hy. reflexivity.
  - rewrite (Sync_aborts env c cachedir packagedir w Hs). reflexivity.
Qed.

End PanicFacts.

Section NilKeyring.

Context {W : Type} (env : Env W) (faults : Faults W).


End NilKeyring.



(** C2, at an input where the code departs from it.  [R1] with GPG
    checking off, [b-2.0] and [c-3.0] missing, both signed and downloaded
    without error: the jobs are scheduled, the job of [b-2.0] is received
    and its file passed to [rpm.GPGCheck] with the nil keyring, the call
    panics, and the run unwinds: it does not return nil, and the job of
    [c-3.0] is never taken from the channel. *)
Theorem Sync_panics_with_checking_off :
  let run := Sync_or_panic (Toy.env Toy.calm)
               (Signed.faults ["mirror/b-2.0.rpm"; "mirror/c-3.0.rpm"])
               Scenarios.R1_nogpg "cache" "mirror" Toy.world0 in
  let job p := new_job (Toy.env Toy.calm) Scenarios.R1_nogpg "mirror" p in
  GPGCheck Scenarios.R1_nogpg = false
  /\ In (EvDownload [job Toy.b; job Toy.c]) (snd run)
  /\ In (EvReceive (job Toy.b)) (snd run)
  /\ fst (fst run) = Panics (FileRef 0) None
  /\ fst (fst run) <> Returns (Ok tt)
  /\ ~ In (EvReceive (job Toy.c)) (snd run).
Proof.
  intros run job. split; [reflexivity|].
  split; [vm_compute; tauto|]. split; [vm_compute; tauto|].
  split; [reflexivity|]. split; [discriminate|].
  intros H. vm_compute in H.
  repeat (destruct H as [H|H]; [discriminate H|]). exact H.
Qed.

(** C5 read to the letter fails twice over: for three missing entries of
    declared size 2^63 - 1 the running total wraps around to 2^63 - 3,
    which is not the sum of the declared sizes; and for an entry of
    declared size -1 the expected size of the job is 2^64 - 1. *)
Lemma declared_sizes_wrap :
  ~ total_is_declared_sum (Toy.env Scenarios.heavy) [] "mirror"
      Scenarios.huge Toy.world0
  /\ ~ job_size_is_declared (Toy.env Toy.calm) Toy.R1 "mirror" Signed.odd.
Proof.
  split.
  - unfold total_is_declared_sum. vm_compute. discriminate.
  - unfold job_size_is_declared. vm_compute. discriminate.
Qed.

(** * Setup failures on a file system *)

Section OnAFileSystem.

Context {W : Type} (env : Env W).

Hypothesis file_system : exists_means_no_directory env.

(** On a file system a setup that had a failed call had a fatal one: the
    listing fails after the already-exists answer of [os.MkdirAll]. *)
Lemma setup_failed_calls (c : Repo) (cachedir packagedir : string) (w : W) :
  existsb failed_call (snd (setup env c cachedir packagedir w))
  = existsb fatal_call (snd (setup env c cachedir packagedir w)).
Proof.
  unfold setup, CacheLocal, try, map_err, bind, observe, perform,
    Dprintf, emit, ret, fail.
  destruct (GPGCheck c);
    [destruct (OpenKeyRing env (GPGKey c) w) as [k|?]; simpl; auto|];
    simpl;
    (destruct (NewCache env cachedir w) as [[ch|?] wa]; simpl; auto);
    (destruct (NewRepoCache env ch c wa) as [[rc|?] wb]; simpl; auto);
    (destruct (Update env rc wb) as [[?|] wc]; simpl; auto);
    (destruct (PrimaryDB_ env rc wc) as [[db|?] wd]; simpl; auto);
    (destruct (os_MkdirAll env packagedir 488 wd) as [[e0|] we] eqn:Hmk;
     simpl;
     [destruct (os_IsExist e0) eqn:Hx; simpl; rewrite ?Hx; auto;
      pose proof (file_system _ _ _ Hmk Hx) as Hl|]);
    (destruct (ioutil_ReadDir env packagedir we) as [fs|?]; simpl;
     rewrite ?Hx; auto; try discriminate Hl);
    (destruct (Packages env db we) as [ps|?]; simpl; rewrite ?Hx; auto).
Qed.

(** On a file system, and as long as every call returns, a run of
    [Repo.Sync] in which any setup call failed returns a non-nil error and
    schedules no download. *)
Lemma Sync_aborts_on_a_failed_setup_call
      (c : Repo) (cachedir packagedir : string) (w w' : W)
      (r : result unit) (t : list event) :
  Sync env c cachedir packagedir w = (r, w', t) ->
  existsb failed_call t = true ->
  failed r = true /\ existsb is_download t = false.
Proof.
  intros Hrun Hf.
  pose proof (setup_failed_calls c cachedir packagedir w) as Hfc.
  destruct (setup_cases env c cachedir packagedir w) as [Hs1 Hs2].
  pose proof (setup_calls env c cachedir packagedir w) as Hc.
  destruct (setup env c cachedir packagedir w) as [[rs w1] t1] eqn:Hs.
  simpl in Hfc, Hs1, Hs2, Hc.
  destruct rs as [[[keyring files] packages]|e].
  - destruct (Sync_run env c cachedir packagedir w Hs)
      as [t2 [t3 [w3 [_ [Q2 [Hy [Q3 _]]]]]]].
    rewrite Hy in Hrun. inversion Hrun; subst r w' t; clear Hrun.
    rewrite !existsb_app in Hf. simpl in Hf.
    rewrite Hfc, <- Hs1 in Hf. simpl in Hf.
    rewrite (existsb_none diff_event failed_call t2) in Hf;
      [|intros [] Hx; try discriminate Hx; reflexivity | exact Q2].
    rewrite (existsb_none loop_event failed_call t3) in Hf;
      [|intros [] Hx; try discriminate Hx; reflexivity | exact Q3].
    discriminate Hf.
  - rewrite (Sync_aborts env c cachedir packagedir w Hs) in Hrun.
    inversion Hrun; subst r w' t; clear Hrun.
    split; [reflexivity | exact Hs2].
Qed.

End OnAFileSystem.
